(** * Anime channel bot: a shallow embedding of [src/bot.py]

    The bot answers every inbound chat event with an image taken from a
    remote stock-photo search, falling back to a bundled list of images
    when the search fails, and remembers the last display name seen in
    every conversation.

    The program is glue around three collaborators that live outside the
    repository: Python's [random] module, the HTTP search endpoint reached
    through [requests], and the chat platform reached through the
    [telegram] SDK.  They are represented by oracles (section [Bot],
    record [runtime]); the program itself is a state-and-exception monad
    over a [world] that holds the user directory and a log of every
    outbound call. *)

From Stdlib Require Import ZArith String Ascii List Lia.
From Stdlib Require Import Floats.SpecFloat.
From stdpp Require Import gmap strings.

Set Warnings "-register-all".

Open Scope string_scope.
Open Scope list_scope.
Open Scope Z_scope.

(* ================================================================== *)
(** ** Python values and exceptions *)
(* ================================================================== *)

(** The exception classes the program can meet.  All of them derive from
    [Exception], so [except Exception] and a bare [except:] catch each. *)
Inductive exn : Type :=
| AttributeError
| UnboundLocalError
| KeyError
| TypeError
| IndexError
| RequestException      (* requests: transport error or timeout *)
| JSONDecodeError       (* response.json() on a body that is not JSON *)
| TelegramError         (* any failure of a chat-platform call *)
| Exception (msg : string).

Inductive result (A : Type) : Type :=
| Ok (a : A)
| Raise (e : exn).
Arguments Ok {A} a.
Arguments Raise {A} e.

(** What [response.json()] can produce: the Python image of a JSON text.
    Objects are association lists; a key is looked up at its first
    occurrence. *)
Inductive json : Type :=
| JNull
| JBool (b : bool)
| JInt (z : Z)
| JFloat (f : spec_float)
| JStr (s : string)
| JArr (l : list json)
| JObj (m : list (string * json)).

Definition nl : string := String (ascii_of_nat 10) EmptyString.

(** [bool(v)] *)
Definition py_truthy (v : json) : bool :=
  match v with
  | JNull => false
  | JBool b => b
  | JInt z => negb (z =? 0)
  | JFloat (S754_zero _) => false
  | JFloat _ => true
  | JStr s => negb (String.eqb s "")
  | JArr l => match l with [] => false | _ => true end
  | JObj m => match m with [] => false | _ => true end
  end.

(** Truth value of the result of [d.get(k)], where a missing key is [None]. *)
Definition py_truthy_opt (o : option json) : bool :=
  match o with
  | None => false
  | Some v => py_truthy v
  end.

(** [s or d] on strings *)
Definition py_or (s d : string) : string :=
  if String.eqb s "" then d else s.

(** [if s:] on an optional string argument ([None] or a string) *)
Definition str_truthy (o : option string) : bool :=
  match o with
  | None => false
  | Some s => negb (String.eqb s "")
  end.

Fixpoint assoc (k : string) (m : list (string * json)) : option json :=
  match m with
  | [] => None
  | (k', v) :: m' => if String.eqb k k' then Some v else assoc k m'
  end.

(** [v.get(k)]: only a dict has the method. *)
Definition dict_get (v : json) (k : string) : result (option json) :=
  match v with
  | JObj m => Ok (assoc k m)
  | _ => Raise AttributeError
  end.

(** [v.get(k, d)] *)
Definition dict_get_default (v : json) (k : string) (d : json) : result json :=
  match v with
  | JObj m => Ok (match assoc k m with Some x => x | None => d end)
  | _ => Raise AttributeError
  end.

(** [v[k]] with a string key [k] *)
Definition subscript (v : json) (k : string) : result json :=
  match v with
  | JObj m => match assoc k m with Some x => Ok x | None => Raise KeyError end
  | _ => Raise TypeError
  end.

(** [len(v)] *)
Definition py_len (v : json) : result nat :=
  match v with
  | JStr s => Ok (String.length s)
  | JArr l => Ok (length l)
  | JObj m => Ok (length m)
  | _ => Raise TypeError
  end.

(** [s.replace(c, '')] for a one-character [c] *)
Fixpoint remove_char (c : ascii) (s : string) : string :=
  match s with
  | EmptyString => EmptyString
  | String a s' =>
      if Ascii.eqb a c then remove_char c s' else String a (remove_char c s')
  end.

(* ================================================================== *)
(** ** Configuration (bot.py, lines 21-36) *)
(* ================================================================== *)

Record config : Type := {
  BOT_TOKEN : string;
  PEXELS_API_KEY : string;
  MAIN_CHANNEL : string;
  BACKUP_CHANNEL : string;
  MAIN_CHANNEL_NAME : string;
  BACKUP_CHANNEL_NAME : string
}.

(** [os.getenv(k)] and [os.getenv(k, default)] over the process
    environment, as it stands after [load_dotenv()]. *)
Definition getenv (environ : gmap string string) (k : string) : option string :=
  environ !! k.

Definition getenv_default (environ : gmap string string) (k d : string) : string :=
  match environ !! k with
  | Some v => v
  | None => d
  end.

Inductive startup : Type :=
| Exit (code : Z)
| Loaded (cfg : config).

(** The module-level statements of bot.py: read the six settings, then
    leave with status 1 when the token or the key is unset or empty. *)
Definition load_config (environ : gmap string string) : startup :=
  let token := getenv environ "TELEGRAM_BOT_TOKEN" in
  let key := getenv environ "PEXELS_API_KEY" in
  let main_channel :=
    getenv_default environ "MAIN_CHANNEL_USERNAME" "@your_main_channel" in
  let backup_channel :=
    getenv_default environ "BACKUP_CHANNEL_USERNAME" "@your_backup_channel" in
  let main_name :=
    getenv_default environ "MAIN_CHANNEL_NAME" "Main Anime Channel" in
  let backup_name :=
    getenv_default environ "BACKUP_CHANNEL_NAME" "Backup Anime Channel" in
  if negb (str_truthy token) then Exit 1
  else if negb (str_truthy key) then Exit 1
  else Loaded {| BOT_TOKEN := default "" token;
                 PEXELS_API_KEY := default "" key;
                 MAIN_CHANNEL := main_channel;
                 BACKUP_CHANNEL := backup_channel;
                 MAIN_CHANNEL_NAME := main_name;
                 BACKUP_CHANNEL_NAME := backup_name |}.

(* ================================================================== *)
(** ** Static tables (bot.py, lines 38-69) *)
(* ================================================================== *)

Definition ANIME_SEARCH_TERMS : list string :=
  [ "anime girl"; "manga art"; "japanese art"; "anime character";
    "kawaii"; "otaku"; "anime style"; "manga girl"; "japanese illustration";
    "anime artwork"; "cosplay"; "japanese culture"; "anime portrait";
    "manga style"; "japanese animation"; "anime aesthetic"; "waifu";
    "anime wallpaper"; "manga character"; "japanese anime" ].

(** The dict with keys ['url'], ['photographer'] and ['alt'] that the
    resolver returns.  The values of a remote photo are whatever the
    response holds, so they are Python values, not strings. *)
Record ImageData : Type := {
  url : json;
  photographer : json;
  alt : json
}.

Definition FALLBACK_IMAGES : list ImageData :=
  [ {| url := JStr "https://images.pexels.com/photos/1591447/pexels-photo-1591447.jpeg?auto=compress&cs=tinysrgb&w=1260&h=750&dpr=1";
       photographer := JStr "Pexels";
       alt := JStr "Beautiful anime-style artwork" |};
    {| url := JStr "https://images.pexels.com/photos/1591373/pexels-photo-1591373.jpeg?auto=compress&cs=tinysrgb&w=1260&h=750&dpr=1";
       photographer := JStr "Pexels";
       alt := JStr "Japanese art style illustration" |};
    {| url := JStr "https://images.pexels.com/photos/1591056/pexels-photo-1591056.jpeg?auto=compress&cs=tinysrgb&w=1260&h=750&dpr=1";
       photographer := JStr "Pexels";
       alt := JStr "Manga-style character art" |};
    {| url := JStr "https://images.pexels.com/photos/2693212/pexels-photo-2693212.jpeg?auto=compress&cs=tinysrgb&w=1260&h=750&dpr=1";
       photographer := JStr "Pexels";
       alt := JStr "Anime aesthetic wallpaper" |} ].

(* ================================================================== *)
(** ** Chat-platform objects (the [telegram] SDK) *)
(* ================================================================== *)

Record User : Type := { first_name : string }.

Module Chat.
Record t : Type := { id : Z }.
End Chat.

Record Message : Type := {
  message_id : Z;
  text : option string
}.

(** A [CallbackQuery] carries [id], [from_user], [message] and [data].
    It has no [effective_chat] and no [effective_user]: those are
    properties of [Update] only. *)
Record CallbackQuery : Type := {
  query_id : string;
  from_user : User;
  data : option string
}.

Record Update : Type := {
  effective_chat : option Chat.t;
  effective_user : option User;
  message : option Message;
  callback_query : option CallbackQuery
}.

(** The first parameter of [send_anime_with_channels] is annotated
    [Update], but Python does not enforce it: the callers pass an
    [Update] or a [CallbackQuery]. *)
Inductive pyobj : Type :=
| ObjUpdate (u : Update)
| ObjCallbackQuery (q : CallbackQuery).

Definition get_effective_chat (o : pyobj) : result (option Chat.t) :=
  match o with
  | ObjUpdate u => Ok (effective_chat u)
  | ObjCallbackQuery _ => Raise AttributeError
  end.

Definition get_effective_user (o : pyobj) : result (option User) :=
  match o with
  | ObjUpdate u => Ok (effective_user u)
  | ObjCallbackQuery _ => Raise AttributeError
  end.

(** [x.attr] where [x] may be [None] *)
Definition attr {A B : Type} (f : A -> B) (x : option A) : result B :=
  match x with
  | Some a => Ok (f a)
  | None => Raise AttributeError
  end.

Record InlineKeyboardButton : Type := {
  label : string;
  link : option string;            (* url= *)
  callback_data : option string   (* callback_data= *)
}.

Record InlineKeyboardMarkup : Type := {
  inline_keyboard : list (list InlineKeyboardButton)
}.

(* ================================================================== *)
(** ** Outbound calls and the world *)
(* ================================================================== *)

Record search_params : Type := {
  query : string;
  per_page : Z;
  page : Z;
  orientation : string
}.

Record http_request : Type := {
  req_url : string;
  req_headers : list (string * string);
  req_params : search_params;
  req_timeout : Z
}.

(** What [requests.get] meets: an exception (connection error, timeout),
    or a response with a status and a body, where the body is [None] when
    it does not parse as JSON. *)
Inductive http_outcome : Type :=
| TransportError
| Response (status_code : Z) (body : option json).

Inductive bot_call : Type :=
| SendMessage (chat_id : Z) (txt : string)
| DeleteMessage (chat_id : Z) (mid : Z)
| SendPhoto (chat_id : Z) (photo : json) (caption : string)
            (reply_markup : InlineKeyboardMarkup)
| AnswerCallbackQuery (qid : string)
| EditMessageCaption (qid : string) (caption : string)
                     (reply_markup : InlineKeyboardMarkup)
| ReplyText (mid : Z) (txt : string) (parse_mode : string).

(** The collaborators.  [rand n] is the [n]-th raw draw of the random
    source, [remote n] the fate of the [n]-th search request, [bot_api n]
    the fate of the [n]-th chat-platform call ([None]: it raises; [Some i]:
    it succeeds, and [i] is the identifier of the message it created),
    [py_repr] the text Python's formatting gives a value that is not a
    string. *)
Record runtime : Type := {
  rand : nat -> nat;
  remote : nat -> http_outcome;
  bot_api : nat -> option Z;
  py_repr : json -> string
}.

Record world : Type := {
  user_db : gmap Z string;
  draws : nat;
  http_log : list http_request;
  bot_log : list bot_call
}.

Definition initial_world : world :=
  {| user_db := ∅; draws := 0%nat; http_log := []; bot_log := [] |}.

(* ================================================================== *)
(** ** The monad: state threaded through calls that may raise *)
(* ================================================================== *)

Definition M (S A : Type) : Type := S -> result A * S.

Definition ret {S A : Type} (a : A) : M S A := fun s => (Ok a, s).

Definition bind {S A B : Type} (m : M S A) (k : A -> M S B) : M S B :=
  fun s =>
    match m s with
    | (Ok a, s') => k a s'
    | (Raise e, s') => (Raise e, s')
    end.

Definition raise {S A : Type} (e : exn) : M S A := fun s => (Raise e, s).

Definition lift {S A : Type} (r : result A) : M S A := fun s => (r, s).

(** [try: body  except Exception: handler] *)
Definition try_except {S A : Type} (body : M S A) (handler : exn -> M S A) : M S A :=
  fun s =>
    match body s with
    | (Ok a, s') => (Ok a, s')
    | (Raise e, s') => handler e s'
    end.

Declare Scope py_scope.
Delimit Scope py_scope with py.
Notation "x <~ c ;;; k" := (bind c (fun x => k))
  (at level 100, c at next level, right associativity) : py_scope.
Notation "c ;;; k" := (bind c (fun _ => k))
  (at level 100, right associativity) : py_scope.
Open Scope py_scope.

(* ================================================================== *)
(** ** The program *)
(* ================================================================== *)

Section Bot.

Variable cfg : config.
Variable rt : runtime.

(** *** Primitive effects *)

(** One raw draw from the random source. *)
Definition draw : M world nat :=
  fun w =>
    (Ok (rand rt (draws w)),
     {| user_db := user_db w; draws := S (draws w);
        http_log := http_log w; bot_log := bot_log w |}).

(** [random.randint(a, b)]: an integer of the closed range [a..b]. *)
Definition randint (a b : Z) : M world Z :=
  r <~ draw ;;;
  ret (a + Z.of_nat r mod (b - a + 1)).

(** [random.choice(seq)] on a Python list: [IndexError] when it is empty,
    otherwise the element at a drawn index. *)
Definition random_choice {A : Type} (seq : list A) : M world A :=
  match seq with
  | [] => raise IndexError
  | x :: _ =>
      r <~ draw ;;;
      ret (nth (r mod length seq)%nat seq x)
  end.

(** [random.choice(v)] on a value out of a JSON body.  A string yields
    one of its characters; a dict is indexed with the drawn integer, which
    is never one of its (string) keys. *)
Definition random_choice_json (v : json) : M world json :=
  match v with
  | JArr l => random_choice l
  | JStr s =>
      match s with
      | EmptyString => raise IndexError
      | String _ _ =>
          r <~ draw ;;;
          ret (JStr (substring (r mod String.length s)%nat 1 s))
      end
  | JObj m =>
      match m with
      | [] => raise IndexError
      | _ :: _ => draw ;;; raise KeyError
      end
  | _ => raise TypeError
  end.

(** [requests.get(url, headers=, params=, timeout=)]: the request leaves,
    and the collaborator decides what comes back. *)
Definition requests_get (u : string) (headers : list (string * string))
    (params : search_params) (timeout : Z) : M world (Z * option json) :=
  fun w =>
    let w' := {| user_db := user_db w; draws := draws w;
                 http_log := http_log w ++
                   [ {| req_url := u; req_headers := headers;
                        req_params := params; req_timeout := timeout |} ];
                 bot_log := bot_log w |} in
    match remote rt (length (http_log w)) with
    | TransportError => (Raise RequestException, w')
    | Response code body => (Ok (code, body), w')
    end.

(** [response.json()] *)
Definition response_json (body : option json) : result json :=
  match body with
  | Some v => Ok v
  | None => Raise JSONDecodeError
  end.

(** A call of the chat platform: it is attempted (and logged) whether or
    not it then succeeds. *)
Definition bot_do (c : bot_call) : M world Z :=
  fun w =>
    let w' := {| user_db := user_db w; draws := draws w;
                 http_log := http_log w; bot_log := bot_log w ++ [c] |} in
    match bot_api rt (length (bot_log w)) with
    | Some i => (Ok i, w')
    | None => (Raise TelegramError, w')
    end.

(** *** The user directory (bot.py, lines 71-80) *)

Definition store_user (chat_id : Z) (user_name : string) : M world unit :=
  fun w =>
    (Ok tt,
     {| user_db := <[chat_id := user_name]> (user_db w); draws := draws w;
        http_log := http_log w; bot_log := bot_log w |}).

Definition get_user_name (chat_id : Z) : M world string :=
  fun w => (Ok (default "User" (user_db w !! chat_id)), w).

(** *** The image resolver (bot.py, lines 82-137) *)

Definition get_random_search_term : M world string :=
  random_choice ANIME_SEARCH_TERMS.

Definition get_fallback_image : M world ImageData :=
  random_choice FALLBACK_IMAGES.

(** Lines 116-133: what the resolver makes of the response (status code
    and body); it runs inside the [try] of [fetch_anime_image]. *)
Definition read_response (response : Z * option json) : M world ImageData :=
  if fst response =? 200 then
    data <~ lift (response_json (snd response)) ;;;
    photos <~ lift (dict_get data "photos") ;;;
    nonempty <~ (if py_truthy_opt photos
                 then (p <~ lift (subscript data "photos") ;;;
                       n <~ lift (py_len p) ;;;
                       ret (0 <? n)%nat)
                 else ret false) ;;;
    if (nonempty : bool) then
      p <~ lift (subscript data "photos") ;;;
      random_photo <~ random_choice_json p ;;;
      src <~ lift (subscript random_photo "src") ;;;
      large <~ lift (subscript src "large") ;;;
      by_whom <~ lift (subscript random_photo "photographer") ;;;
      alt_text <~ lift (dict_get_default random_photo "alt"
                                          (JStr "Anime-style image")) ;;;
      ret {| url := large; photographer := by_whom; alt := alt_text |}
    else get_fallback_image
  else get_fallback_image.

(** Lines 93-114 followed by [read_response]: the body of the [try]. *)
Definition fetch_anime_image_try : M world ImageData :=
  search_term <~ get_random_search_term ;;;
  random_page <~ randint 1 10 ;;;
  let headers := [("Authorization", PEXELS_API_KEY cfg)] in
  let params := {| query := search_term; per_page := 20;
                   page := random_page; orientation := "all" |} in
  response <~ requests_get "https://api.pexels.com/v1/search" headers params 10 ;;;
  read_response response.

Definition fetch_anime_image : M world ImageData :=
  try_except fetch_anime_image_try (fun _ => get_fallback_image).

(** *** The reply composer (bot.py, lines 139-151 and 173-180) *)

Definition create_channel_keyboard : InlineKeyboardMarkup :=
  {| inline_keyboard :=
       [ [ {| label := "🌸 " +:+ MAIN_CHANNEL_NAME cfg;
              link := Some ("https://t.me/" +:+ remove_char "@" (MAIN_CHANNEL cfg));
              callback_data := None |};
           {| label := "💫 " +:+ BACKUP_CHANNEL_NAME cfg;
              link := Some ("https://t.me/" +:+ remove_char "@" (BACKUP_CHANNEL cfg));
              callback_data := None |} ];
         [ {| label := "🎲 Get Another Image";
              link := None;
              callback_data := Some "get_random" |};
           {| label := "❓ Help";
              link := None;
              callback_data := Some "help" |} ] ] |}.

(** [f"{v}"] *)
Definition py_str (v : json) : string :=
  match v with
  | JStr s => s
  | _ => py_repr rt v
  end.

Definition call_to_action : string :=
  "💫 Join our channels for more anime content! 👇".

(** The caption assembled at lines 173-180: an opening, then three
    [caption += ...] steps. *)
Definition build_caption (welcome_text : option string) (user_name : string)
    (image_data : ImageData) : string :=
  let caption :=
    if str_truthy welcome_text
    then default "" welcome_text +:+ nl +:+ nl
    else "🌸 Here's your anime image, " +:+ user_name +:+ "! 🌸" +:+ nl +:+ nl in
  let caption := caption +:+ ("🎨 " +:+ py_str (alt image_data) +:+ nl) in
  let caption :=
    caption +:+ ("📸 Photo by: " +:+ py_str (photographer image_data) +:+ nl +:+ nl) in
  caption +:+ call_to_action.

(** The caption of the degraded reply (line 212). *)
Definition fallback_caption (fallback_image : ImageData) : string :=
  "🌸 Here's your anime image! 🌸" +:+ nl +:+ nl
  +:+ "🎨 " +:+ py_str (alt fallback_image) +:+ nl
  +:+ "📸 Photo by: " +:+ py_str (photographer fallback_image) +:+ nl +:+ nl
  +:+ call_to_action.

(** *** The interaction sequencer (bot.py, lines 153-214) *)

(** The local variables of [send_anime_with_channels] that its [except]
    block reads; [None] is "not assigned yet". *)
Record locals : Type := {
  l_chat_id : option Z;
  l_status_message : option Message
}.

Definition no_locals : locals :=
  {| l_chat_id := None; l_status_message := None |}.

Definition in_world {A : Type} (m : M world A) : M (locals * world) A :=
  fun s =>
    match m (snd s) with
    | (r, w') => (r, (fst s, w'))
    end.

Definition assign_chat_id (c : Z) : M (locals * world) unit :=
  fun s =>
    (Ok tt, ({| l_chat_id := Some c;
                l_status_message := l_status_message (fst s) |}, snd s)).

Definition assign_status_message (m : Message) : M (locals * world) unit :=
  fun s =>
    (Ok tt, ({| l_chat_id := l_chat_id (fst s);
                l_status_message := Some m |}, snd s)).

(** Reading a local variable that was never assigned. *)
Definition read_local {A : Type} (x : option A) : result A :=
  match x with
  | Some a => Ok a
  | None => Raise UnboundLocalError
  end.

Definition placeholder_text : string :=
  "🎨 Getting a fresh anime image for you... ✨".

(** The body of the [try] (lines 156-196). *)
Definition send_anime_try (update : pyobj) (welcome_text : option string)
  : M (locals * world) unit :=
  chat <~ lift (get_effective_chat update) ;;;
  chat_id <~ lift (attr Chat.id chat) ;;;
  assign_chat_id chat_id ;;;
  user <~ lift (get_effective_user update) ;;;
  first <~ lift (attr first_name user) ;;;
  let user_name := py_or first "there" in
  in_world (store_user chat_id user_name) ;;;
  sent <~ in_world (bot_do (SendMessage chat_id placeholder_text)) ;;;
  let status_message := {| message_id := sent; text := Some placeholder_text |} in
  assign_status_message status_message ;;;
  image_data <~ in_world fetch_anime_image ;;;
  if py_truthy (url image_data) then
    let caption := build_caption welcome_text user_name image_data in
    in_world (bot_do (DeleteMessage chat_id (message_id status_message))) ;;;
    in_world (bot_do (SendPhoto chat_id (url image_data) caption
                                create_channel_keyboard)) ;;;
    ret tt
  else raise (Exception "No image data received").

(** The [except Exception] block (lines 198-214). *)
Definition send_anime_except (l : locals) : M world unit :=
  try_except
    (chat_id <~ lift (read_local (l_chat_id l)) ;;;
     status_message <~ lift (read_local (l_status_message l)) ;;;
     bot_do (DeleteMessage chat_id (message_id status_message)) ;;;
     ret tt)
    (fun _ => ret tt) ;;;
  fallback_image <~ get_fallback_image ;;;
  chat_id <~ lift (read_local (l_chat_id l)) ;;;
  bot_do (SendPhoto chat_id (url fallback_image)
                    (fallback_caption fallback_image)
                    create_channel_keyboard) ;;;
  ret tt.

Definition send_anime_with_channels (update : pyobj)
    (welcome_text : option string) : M world unit :=
  fun w =>
    match send_anime_try update welcome_text (no_locals, w) with
    | (Ok _, (_, w')) => (Ok tt, w')
    | (Raise _, (l, w')) => send_anime_except l w'
    end.

(** *** The handlers (bot.py, lines 216-299) *)

Definition start_command (update : Update) : M world unit :=
  first <~ lift (attr first_name (effective_user update)) ;;;
  let user_name := py_or first "there" in
  let welcome_text :=
    "🌸 Welcome " +:+ user_name +:+ "! 🌸" +:+ nl +:+ nl
    +:+ "✨ I'm your personal anime bot! Every time you send me a message or photo, I'll respond with a beautiful anime image and show you our amazing channels!" in
  (* the log line reads update.effective_chat.id *)
  lift (attr Chat.id (effective_chat update)) ;;;
  send_anime_with_channels (ObjUpdate update) (Some welcome_text).

Definition help_text : string :=
  String.concat nl
    [ "";
      "🤖 **Anime Channel Bot Help**";
      "";
      "🌸 **How it works:**";
      "• Send me ANY message or photo";
      "• I'll respond with anime images + channel links";
      "• Get unlimited fresh anime content!";
      "";
      "🎮 **Commands:**";
      "• /start - Welcome message + anime image";
      "• /help - Show this help message";
      "";
      "✨ **Features:**";
      "• Unlimited anime images from API";
      "• Automatic channel promotion";
      "• High-quality artwork";
      "• Fresh content every time";
      "";
      "💫 **Channels:**";
      "• Main: " +:+ MAIN_CHANNEL cfg;
      "• Backup: " +:+ BACKUP_CHANNEL cfg;
      "";
      "🎨 Just send me anything and enjoy anime art!";
      "    " ].

Definition help_command (update : Update) : M world unit :=
  mid <~ lift (attr message_id (message update)) ;;;
  bot_do (ReplyText mid help_text "Markdown") ;;;
  ret tt.

Definition handle_any_message (update : Update) : M world unit :=
  lift (attr first_name (effective_user update)) ;;;
  message_text <~ lift (attr text (message update)) ;;;
  (* the log line slices message_text[:50] *)
  lift (match message_text with
        | Some _ => Ok tt
        | None => Raise TypeError
        end) ;;;
  send_anime_with_channels (ObjUpdate update) None.

Definition handle_photo (update : Update) : M world unit :=
  lift (attr first_name (effective_user update)) ;;;
  send_anime_with_channels (ObjUpdate update) None.

Definition quick_help_text : string :=
  String.concat nl
    [ "";
      "🤖 **Quick Help**";
      "";
      "🌸 Send me any message or photo for anime images!";
      "";
      "💫 **Our Channels:**";
      "• Main: " +:+ MAIN_CHANNEL cfg;
      "• Backup: " +:+ BACKUP_CHANNEL cfg;
      "";
      "🎨 Enjoy unlimited anime content!";
      "        " ].

Definition data_is (q : CallbackQuery) (s : string) : bool :=
  match data q with
  | Some d => String.eqb d s
  | None => false
  end.

Definition handle_callback_query (update : Update) : M world unit :=
  q <~ lift (attr (fun q : CallbackQuery => q) (callback_query update)) ;;;
  bot_do (AnswerCallbackQuery (query_id q)) ;;;
  if data_is q "get_random" then
    send_anime_with_channels (ObjCallbackQuery q) None
  else if data_is q "help" then
    bot_do (EditMessageCaption (query_id q) quick_help_text
                               create_channel_keyboard) ;;;
    ret tt
  else ret tt.

(** *** Registration and polling (bot.py, lines 301-334) *)

(** An inbound event, sorted by the first registered handler whose filter
    accepts it; the filters themselves belong to the SDK. *)
Inductive inbound : Type :=
| Command (name : string) (u : Update)
| TextMessage (u : Update)
| PhotoMessage (u : Update)
| ButtonPress (u : Update)
| Unmatched (u : Update).

Definition dispatch (ev : inbound) : M world unit :=
  match ev with
  | Command name u =>
      if String.eqb name "start" then start_command u
      else if String.eqb name "help" then help_command u
      else ret tt
  | TextMessage u => handle_any_message u
  | PhotoMessage u => handle_photo u
  | ButtonPress u => handle_callback_query u
  | Unmatched _ => ret tt
  end.

(** One event: an exception that leaves the handler reaches
    [error_handler], which logs it; polling goes on. *)
Definition serve (w : world) (ev : inbound) : world :=
  snd (dispatch ev w).

Definition run_polling (events : list inbound) (w : world) : world :=
  fold_left serve events w.

End Bot.

(** The process: the module-level statements, then [main()]. *)
Inductive process : Type :=
| Exited (code : Z)
| Served (w : world).

Definition run_bot (rt : runtime) (environ : gmap string string)
    (events : list inbound) : process :=
  match load_config environ with
  | Exit code => Exited code
  | Loaded cfg => Served (run_polling cfg rt events initial_world)
  end.

(* ================================================================== *)
(** ** Vocabulary of the statements *)
(* ================================================================== *)

(** Two worlds that differ at most in the number of random draws made. *)
Definition only_draws (w w' : world) : Prop :=
  user_db w' = user_db w /\ http_log w' = http_log w /\ bot_log w' = bot_log w.

Definition nonempty_url (d : ImageData) : Prop :=
  exists s, url d = JStr s /\ s <> "".

(** The descriptor [d] is the one lines 123-127 build from [photo]. *)
Definition made_from (photo : json) (d : ImageData) : Prop :=
  exists src,
    subscript photo "src" = Ok src /\
    subscript src "large" = Ok (url d) /\
    subscript photo "photographer" = Ok (photographer d) /\
    dict_get_default photo "alt" (JStr "Anime-style image") = Ok (alt d).

(** The response is a 200 whose body lists photos, and [d] is made from
    one of them. *)
Definition usable_photo (resp : Z * option json) (d : ImageData) : Prop :=
  exists body l photo,
    fst resp = 200 /\ snd resp = Some body /\
    subscript body "photos" = Ok (JArr l) /\ In photo l /\ made_from photo d.

(** The remote call failed: no response, a status other than 200, a body
    that is not a JSON object, or a missing, null or empty photo list. *)
Definition remote_failed (o : http_outcome) : bool :=
  match o with
  | TransportError => true
  | Response code body =>
      if code =? 200 then
        match body with
        | Some (JObj m) => negb (py_truthy_opt (assoc "photos" m))
        | _ => true
        end
      else true
  end.

(** The one search request a resolution started in world [w] sends. *)
Definition the_request (cfg : config) (rt : runtime) (w : world) : http_request :=
  {| req_url := "https://api.pexels.com/v1/search";
     req_headers := [("Authorization", PEXELS_API_KEY cfg)];
     req_params :=
       {| query := nth (rand rt (draws w) mod 20)%nat ANIME_SEARCH_TERMS "anime girl";
          per_page := 20;
          page := 1 + Z.of_nat (rand rt (S (draws w))) mod 10;
          orientation := "all" |};
     req_timeout := 10 |}.

Definition requested (cfg : config) (rt : runtime) (w : world) : world :=
  {| user_db := user_db w; draws := S (S (draws w));
     http_log := http_log w ++ [the_request cfg rt w]; bot_log := bot_log w |}.

(** The deletion the [except] block attempts: none when no placeholder
    was ever sent. *)
Definition cleanup_calls (c : Z) (l : locals) : list bot_call :=
  match l_status_message l with
  | Some m => [DeleteMessage c (message_id m)]
  | None => []
  end.

Definition degraded_reply (cfg : config) (rt : runtime) (c : Z)
    (fb : ImageData) : bot_call :=
  SendPhoto c (url fb) (fallback_caption rt fb) (create_channel_keyboard cfg).

(** The world in which the resolver runs during the sequence: the
    requester is recorded and the placeholder has been sent. *)
Definition placeholder_sent (c : Z) (user_name : string) (w : world) : world :=
  {| user_db := <[c := user_name]> (user_db w); draws := draws w;
     http_log := http_log w;
     bot_log := bot_log w ++ [SendMessage c placeholder_text] |}.

Definition outcome_of (o : option Z) : result unit :=
  match o with
  | Some _ => Ok tt
  | None => Raise TelegramError
  end.

(** The strings [parts] occur in [s] one after the other. *)
Fixpoint in_order (parts : list string) (s : string) : Prop :=
  match parts with
  | [] => True
  | p :: ps =>
      exists before after, s = before +:+ p +:+ after /\ in_order ps after
  end.

Definition is_link_button (b : InlineKeyboardButton) : bool :=
  match link b, callback_data b with
  | Some _, None => true
  | _, _ => false
  end.

Definition is_action_button (b : InlineKeyboardButton) (action : string) : bool :=
  match link b, callback_data b with
  | None, Some a => String.eqb a action
  | _, _ => false
  end.

Definition is_new_message (c : bot_call) : bool :=
  match c with
  | SendMessage _ _ | SendPhoto _ _ _ _ | ReplyText _ _ _ => true
  | _ => false
  end.

(** *** Concrete scenarios *)

Definition sample_cfg : config :=
  {| BOT_TOKEN := "123:abc"; PEXELS_API_KEY := "key";
     MAIN_CHANNEL := "@main"; BACKUP_CHANNEL := "@backup";
     MAIN_CHANNEL_NAME := "Main"; BACKUP_CHANNEL_NAME := "Backup" |}.

Definition sample_repr (v : json) : string :=
  match v with
  | JNull => "None"
  | JBool true => "True"
  | JBool false => "False"
  | _ => "?"
  end.

(** A platform where every call succeeds. *)
Definition platform_up (n : nat) : option Z := Some (100 + Z.of_nat n).


Definition body_one_photo : json :=
  JObj [("photos",
         JArr [JObj [("src", JObj [("large", JStr "https://img.example/1.jpg")]);
                     ("photographer", JStr "Ann");
                     ("alt", JStr "A drawing")]])].

(** A 200 whose only photo has an empty large rendition. *)
Definition body_empty_url : json :=
  JObj [("photos",
         JArr [JObj [("src", JObj [("large", JStr "")]);
                     ("photographer", JStr "Ann")]])].

Definition rt_ok : runtime :=
  {| rand := fun _ => 0%nat;
     remote := fun _ => Response 200 (Some body_one_photo);
     bot_api := platform_up;
     py_repr := sample_repr |}.

Definition rt_empty_url : runtime :=
  {| rand := fun _ => 0%nat;
     remote := fun _ => Response 200 (Some body_empty_url);
     bot_api := platform_up;
     py_repr := sample_repr |}.

Definition rt_http_500 : runtime :=
  {| rand := fun _ => 0%nat;
     remote := fun _ => Response 500 None;
     bot_api := platform_up;
     py_repr := sample_repr |}.


(** The placeholder cannot be sent; every later call succeeds. *)
Definition platform_first_call_fails (n : nat) : option Z :=
  match n with
  | O => None
  | S _ => Some (100 + Z.of_nat n)
  end.

Definition rt_placeholder_fails : runtime :=
  {| rand := fun _ => 0%nat;
     remote := fun _ => Response 200 (Some body_one_photo);
     bot_api := platform_first_call_fails;
     py_repr := sample_repr |}.

Definition aiko : User := {| first_name := "Aiko" |}.

Definition chat_123 : Chat.t := {| Chat.id := 123 |}.

Definition text_update : Update :=
  {| effective_chat := Some chat_123;
     effective_user := Some aiko;
     message := Some {| message_id := 1; text := Some "hello" |};
     callback_query := None |}.

Definition button_update (pressed : string) : Update :=
  {| effective_chat := Some chat_123;
     effective_user := Some aiko;
     message := None;
     callback_query :=
       Some {| query_id := "q1"; from_user := aiko; data := Some pressed |} |}.

Definition environ_token_and_key : gmap string string :=
  <["TELEGRAM_BOT_TOKEN" := "123:abc"]> (<["PEXELS_API_KEY" := "key"]> ∅).

Definition environ_no_key : gmap string string :=
  <["TELEGRAM_BOT_TOKEN" := "123:abc"]> ∅.

(** *** Vocabulary of the further properties *)

(** The computation [m] relates the world it starts in to the world it
    leaves by [R]; [proj] finds the world in the state of [m]. *)
Definition respects {St A : Type} (R : world -> world -> Prop)
    (proj : St -> world) (m : M St A) : Prop :=
  forall s, R (proj s) (proj (snd (m s))).

Definition same_requests (w w' : world) : Prop :=
  http_log w' = http_log w.

Definition at_most_one_request {St A : Type} (proj : St -> world)
    (m : M St A) : Prop :=
  forall s,
    (length (http_log (proj (snd (m s)))) <= S (length (http_log (proj s))))%nat.

(** A request as the resolver alone writes it: nothing in it comes from
    an inbound event. *)
Definition good_request (cfg : config) (r : http_request) : Prop :=
  req_url r = "https://api.pexels.com/v1/search" /\
  req_headers r = [("Authorization", PEXELS_API_KEY cfg)] /\
  In (query (req_params r)) ANIME_SEARCH_TERMS /\
  per_page (req_params r) = 20 /\
  1 <= page (req_params r) <= 10 /\
  orientation (req_params r) = "all" /\
  req_timeout r = 10.

(** How the world may change while events are served: both logs only
    grow, every new request is a [good_request], no directory entry
    disappears, and a name that was not there before is not empty. *)
Definition evolves (cfg : config) (w w' : world) : Prop :=
  (exists hs, http_log w' = http_log w ++ hs /\ Forall (good_request cfg) hs) /\
  (exists bs, bot_log w' = bot_log w ++ bs) /\
  (forall c, is_Some (user_db w !! c) -> is_Some (user_db w' !! c)) /\
  (forall c n, user_db w' !! c = Some n -> user_db w !! c = Some n \/ n <> "").

(** A step that leaves the directory and the requests alone and at most
    adds platform calls. *)
Definition quiet (w w' : world) : Prop :=
  user_db w' = user_db w /\ http_log w' = http_log w /\
  exists bs, bot_log w' = bot_log w ++ bs.

(** The world after one more platform call. *)
Definition log_call (c : bot_call) (w : world) : world :=
  {| user_db := user_db w; draws := draws w; http_log := http_log w;
     bot_log := bot_log w ++ [c] |}.

(** The world after [k] more draws. *)
Definition drawn (k : nat) (w : world) : world :=
  {| user_db := user_db w; draws := (k + draws w)%nat;
     http_log := http_log w; bot_log := bot_log w |}.

(** A photo record with the two fields the resolver insists on. *)
Definition well_formed_photo (photo : json) : Prop :=
  exists src large who,
    subscript photo "src" = Ok src /\
    subscript src "large" = Ok large /\
    subscript photo "photographer" = Ok who.

Fixpoint has_char (c : ascii) (s : string) : bool :=
  match s with
  | EmptyString => false
  | String a s' => Ascii.eqb a c || has_char c s'
  end.

(** The locals once the placeholder [i] has been sent to chat [c]. *)
Definition locals_after_placeholder (c i : Z) : locals :=
  {| l_chat_id := Some c;
     l_status_message :=
       Some {| message_id := i; text := Some placeholder_text |} |}.

(** The text [start_command] passes as greeting. *)
Definition welcome_for (user_name : string) : string :=
  "🌸 Welcome " +:+ user_name +:+ "! 🌸" +:+ nl +:+ nl
  +:+ "✨ I'm your personal anime bot! Every time you send me a message or photo, I'll respond with a beautiful anime image and show you our amazing channels!".

(** The runtime [rt] with the outcome of draw number [n] set to [k]. *)
Definition with_draw (rt : runtime) (n k : nat) : runtime :=
  {| rand := fun i => if Nat.eqb i n then k else rand rt i;
     remote := remote rt;
     bot_api := bot_api rt;
     py_repr := py_repr rt |}.

(** The page numbers of the requests that a resolution started in [w]
    sends. *)
Definition requested_pages (cfg : config) (rt : runtime) (w : world) : list Z :=
  map (fun r => page (req_params r))
      (skipn (length (http_log w))
             (http_log (snd (fetch_anime_image cfg rt w)))).


(** A platform on which only call number [k] fails. *)
Definition platform_fails_at (k n : nat) : option Z :=
  if Nat.eqb n k then None else Some (100 + Z.of_nat n).

Definition rt_fails_at (k : nat) : runtime :=
  {| rand := fun _ => 0%nat;
     remote := fun _ => Response 200 (Some body_one_photo);
     bot_api := platform_fails_at k;
     py_repr := sample_repr |}.

Definition update_without_user : Update :=
  {| effective_chat := Some chat_123;
     effective_user := None;
     message := Some {| message_id := 1; text := Some "hello" |};
     callback_query := None |}.

Definition update_without_chat : Update :=
  {| effective_chat := None;
     effective_user := Some aiko;
     message := None;
     callback_query := None |}.

Definition one_photo_descriptor : ImageData :=
  {| url := JStr "https://img.example/1.jpg";
     photographer := JStr "Ann"; alt := JStr "A drawing" |}.

Definition empty_url_descriptor : ImageData :=
  {| url := JStr ""; photographer := JStr "Ann";
     alt := JStr "Anime-style image" |}.

(** The world in which the resolver runs for [text_update]. *)
Definition aiko_waiting : world := placeholder_sent 123 "Aiko" initial_world.

Definition environ_with_more : gmap string string :=
  <["HOME" := "/home/bot"]> environ_token_and_key.

Definition world_with_aiko : world :=
  {| user_db := <[123 := "Aiko"]> ∅; draws := 0%nat;
     http_log := []; bot_log := [] |}.

Definition nameless_update : Update :=
  {| effective_chat := Some chat_123;
     effective_user := Some {| first_name := "" |};
     message := Some {| message_id := 1; text := Some "hello" |};
     callback_query := None |}.

(* ================================================================== *)
(** ** Facts about the image resolver *)
(* ================================================================== *)

Lemma only_draws_refl w : only_draws w w.
Proof. repeat split. Qed.

Lemma fallback_urls_nonempty d : In d FALLBACK_IMAGES -> nonempty_url d.
Proof.
  intros Hin. unfold FALLBACK_IMAGES in Hin. cbn [In] in Hin.
  destruct Hin as [<-|[<-|[<-|[<-|[]]]]];
    (eexists; split; [reflexivity|discriminate]).
Qed.

Lemma usable_not_failed code body d :
  usable_photo (code, body) d -> remote_failed (Response code body) = false.
Proof.
  intros (data & l & photo & Hcode & Hbody & Hphotos & Hin & _).
  cbn [fst snd] in Hcode, Hbody. subst code body. cbn [remote_failed Z.eqb Pos.eqb].
  destruct data as [| | | | | |m]; try discriminate Hphotos.
  cbn [subscript] in Hphotos.
  destruct (assoc "photos" m) as [p|]; [|discriminate Hphotos].
  inversion Hphotos; subst p. destruct l; [destruct Hin|reflexivity].
Qed.

Section ResolverFacts.

Variable cfg : config.
Variable rt : runtime.

Lemma random_choice_spec {A : Type} (seq : list A) w :
  seq <> [] ->
  exists x w', random_choice rt seq w = (Ok x, w') /\ In x seq /\ only_draws w w'.
Proof.
  destruct seq as [|a seq]; [congruence|]. intros _.
  eexists _, _. split; [reflexivity|]. split; [|repeat split].
  apply nth_In. apply Nat.mod_upper_bound. discriminate.
Qed.

Lemma get_fallback_image_spec w :
  exists d w', get_fallback_image rt w = (Ok d, w') /\
               In d FALLBACK_IMAGES /\ only_draws w w'.
Proof. apply random_choice_spec. discriminate. Qed.

Lemma random_choice_json_spec v w :
  exists r w', random_choice_json rt v w = (r, w') /\ only_draws w w' /\
    match r with
    | Ok x => (exists l, v = JArr l /\ In x l) \/ (exists s, x = JStr s)
    | Raise _ => True
    end.
Proof.
  destruct v as [| | | |s|l|m];
    try (eexists _, _; split; [reflexivity|]; split; [apply only_draws_refl|exact I]).
  - destruct s; eexists _, _; (split; [reflexivity|]); split;
      try apply only_draws_refl; try exact I; [repeat split|right; eauto].
  - destruct l as [|a l].
    + eexists _, _; split; [reflexivity|]; split; [apply only_draws_refl|exact I].
    + destruct (random_choice_spec (a :: l) w) as (x & w' & E & Hin & F);
        [discriminate|].
      exists (Ok x), w'. split; [exact E|]. split; [exact F|]. left; eauto.
  - destruct m; eexists _, _; (split; [reflexivity|]); split;
      try apply only_draws_refl; try exact I. repeat split.
Qed.

(** Whatever the response, reading it touches nothing but the random
    source, and a descriptor it returns is a fallback entry or is made
    from a photo of the body. *)
Lemma read_response_spec resp w :
  exists r w', read_response rt resp w = (r, w') /\ only_draws w w' /\
    match r with
    | Ok d => In d FALLBACK_IMAGES \/ usable_photo resp d
    | Raise _ => True
    end.
Proof.
  assert (Hfb : forall w0, exists r w',
    get_fallback_image rt w0 = (r, w') /\ only_draws w0 w' /\
    match r with
    | Ok d => In d FALLBACK_IMAGES \/ usable_photo resp d
    | Raise _ => True
    end).
  { intros w0. destruct (get_fallback_image_spec w0) as (d & w' & E & Hin & F).
    exists (Ok d), w'. auto. }
  assert (Hraise : forall e w0, exists r w',
    (Raise e : result ImageData, w0) = (r, w') /\ only_draws w0 w' /\
    match r with
    | Ok d => In d FALLBACK_IMAGES \/ usable_photo resp d
    | Raise _ => True
    end).
  { intros e w0. exists (Raise e), w0. split; [reflexivity|].
    split; [apply only_draws_refl|exact I]. }
  destruct resp as [code body]. unfold read_response. cbn [fst snd].
  destruct (code =? 200) eqn:Hcode; [|apply Hfb].
  apply Z.eqb_eq in Hcode. subst code.
  destruct body as [data|]; [|apply Hraise].
  destruct data as [| | | | | |m]; try apply Hraise.
  unfold bind, lift, ret. cbn [response_json dict_get subscript].
  destruct (assoc "photos" m) as [p|] eqn:Hp; cbn [py_truthy_opt]; [|apply Hfb].
  destruct (py_truthy p); [|apply Hfb].
  destruct (py_len p) as [n|e]; [|apply Hraise].
  destruct (0 <? n)%nat; [|apply Hfb].
  destruct (random_choice_json_spec p w) as (r & w' & E & F & Hr).
  rewrite E. destruct r as [photo|e]; [|exists (Raise e), w'; auto].
  destruct (subscript photo "src") as [src|e] eqn:Hsrc;
    [|exists (Raise e), w'; auto].
  destruct (subscript src "large") as [large|e] eqn:Hlarge;
    [|exists (Raise e), w'; auto].
  destruct (subscript photo "photographer") as [who|e] eqn:Hwho;
    [|exists (Raise e), w'; auto].
  destruct (dict_get_default photo "alt" (JStr "Anime-style image"))
    as [a|e] eqn:Halt; [|exists (Raise e), w'; auto].
  eexists _, w'. split; [reflexivity|]. split; [exact F|]. right.
  destruct Hr as [(l & -> & Hin)|(s & ->)]; [|discriminate Hsrc].
  exists (JObj m), l, photo. cbn [fst snd subscript]. rewrite Hp.
  repeat split; auto. exists src. auto.
Qed.

(** Up to the response, the [try] of the resolver is two draws and one
    request. *)
Lemma fetch_anime_image_try_eq w :
  fetch_anime_image_try cfg rt w =
  match remote rt (length (http_log w)) with
  | TransportError => (Raise RequestException, requested cfg rt w)
  | Response code body => read_response rt (code, body) (requested cfg rt w)
  end.
Proof.
  unfold fetch_anime_image_try, get_random_search_term, randint, requests_get,
    random_choice, ANIME_SEARCH_TERMS, bind, draw, ret.
  cbn [http_log draws user_db bot_log].
  destruct (remote rt (length (http_log w))); reflexivity.
Qed.

Lemma fetch_anime_image_spec w :
  exists d w',
    fetch_anime_image cfg rt w = (Ok d, w') /\
    user_db w' = user_db w /\ bot_log w' = bot_log w /\
    http_log w' = http_log w ++ [the_request cfg rt w] /\
    (In d FALLBACK_IMAGES \/
     exists code body, remote rt (length (http_log w)) = Response code body /\
                       usable_photo (code, body) d).
Proof.
  unfold fetch_anime_image, try_except. rewrite fetch_anime_image_try_eq.
  destruct (remote rt (length (http_log w))) as [|code body] eqn:Hremote.
  - destruct (get_fallback_image_spec (requested cfg rt w))
      as (d & w' & E & Hin & F1 & F2 & F3).
    exists d, w'. rewrite E. cbn [requested user_db bot_log http_log] in *.
    repeat split; auto.
  - destruct (read_response_spec (code, body) (requested cfg rt w))
      as (r & w1 & E & (F1 & F2 & F3) & Hr).
    rewrite E. destruct r as [d|e].
    + exists d, w1. cbn [requested user_db bot_log http_log] in *.
      repeat split; auto.
      destruct Hr as [Hr|Hr]; [left|right]; eauto.
    + destruct (get_fallback_image_spec w1) as (d & w' & E' & Hin & G1 & G2 & G3).
      exists d, w'. rewrite E'. cbn [requested user_db bot_log http_log] in *.
      repeat split; auto; congruence.
Qed.

Lemma the_request_term w :
  In (query (req_params (the_request cfg rt w))) ANIME_SEARCH_TERMS.
Proof.
  cbn [the_request req_params query]. apply nth_In.
  change (length ANIME_SEARCH_TERMS) with 20%nat.
  apply Nat.mod_upper_bound. discriminate.
Qed.

(** C1 (as amended).  Whatever the remote collaborator does, the resolver
    returns a descriptor and raises nothing.  When the remote call failed
    (no response, a status other than 200, a body that is not a JSON
    object, a missing or empty photo list) the descriptor is one of the
    four fallback entries, and each of those has a non-empty URL.  A
    descriptor that is not a fallback entry comes from a 200 response and
    carries the [src.large] value of one of its photos as it stands. *)
Theorem fetch_anime_image_never_raises w :
  exists d w',
    fetch_anime_image cfg rt w = (Ok d, w') /\
    (remote_failed (remote rt (length (http_log w))) = true ->
     In d FALLBACK_IMAGES) /\
    (In d FALLBACK_IMAGES -> nonempty_url d) /\
    (In d FALLBACK_IMAGES \/
     exists code body, remote rt (length (http_log w)) = Response code body /\
                       usable_photo (code, body) d).
Proof.
  destruct (fetch_anime_image_spec w) as (d & w' & E & _ & _ & _ & Hd).
  exists d, w'. split; [exact E|]. split; [|split; [apply fallback_urls_nonempty|exact Hd]].
  intros Hfail. destruct Hd as [Hd|(code & body & Hremote & Hu)]; [exact Hd|].
  rewrite Hremote, (usable_not_failed _ _ _ Hu) in Hfail. discriminate Hfail.
Qed.

End ResolverFacts.

Lemma requested_pages_eq (cfg : config) (rt : runtime) (w : world) :
  requested_pages cfg rt w = [1 + Z.of_nat (rand rt (S (draws w))) mod 10].
Proof.
  unfold requested_pages.
  destruct (fetch_anime_image_spec cfg rt w) as (d & w' & E & _ & _ & Hlog & _).
  rewrite E. cbn [snd]. rewrite Hlog, skipn_app, skipn_all, Nat.sub_diag.
  reflexivity.
Qed.

(** C7.  A resolution sends exactly one search request: to the search
    endpoint, for one of the listed terms, 20 results per page, timeout
    10, and a page that is the outcome of [random.randint(1, 10)] on the
    second draw.  The page is always between 1 and 10, and the draw is
    spread evenly over the pages: whatever the state and whatever the
    other collaborators do, each page from 1 to 10 is the one requested
    for exactly one of the ten residues of the draw.  A transport error, a
    status other than 200 and an empty photo list each end in a fallback
    entry, and in every case the log of requests grows by that single
    request: nothing is retried. *)
Theorem fetch_anime_image_single_request (cfg : config) (rt : runtime) w :
  exists d w' req,
    fetch_anime_image cfg rt w = (Ok d, w') /\
    http_log w' = http_log w ++ [req] /\
    req_url req = "https://api.pexels.com/v1/search" /\
    In (query (req_params req)) ANIME_SEARCH_TERMS /\
    per_page (req_params req) = 20 /\
    requested_pages cfg rt w = [page (req_params req)] /\
    1 <= page (req_params req) <= 10 /\
    req_timeout req = 10 /\
    (remote rt (length (http_log w)) = TransportError ->
     In d FALLBACK_IMAGES) /\
    (forall code body,
       remote rt (length (http_log w)) = Response code body ->
       code <> 200 -> In d FALLBACK_IMAGES) /\
    (forall m,
       remote rt (length (http_log w)) = Response 200 (Some (JObj m)) ->
       assoc "photos" m = Some (JArr []) -> In d FALLBACK_IMAGES) /\
    (forall p, 1 <= p <= 10 ->
       exists k, (k < 10)%nat /\
         forall k',
           requested_pages cfg (with_draw rt (S (draws w)) k') w = [p]
           <-> (k' mod 10 = k)%nat).
Proof.
  destruct (fetch_anime_image_spec cfg rt w) as (d & w' & E & _ & _ & Hlog & Hd).
  exists d, w', (the_request cfg rt w).
  assert (Hfail : remote_failed (remote rt (length (http_log w))) = true ->
                  In d FALLBACK_IMAGES).
  { intros Hfail. destruct Hd as [Hd|(code & body & Hremote & Hu)]; [exact Hd|].
    rewrite Hremote, (usable_not_failed _ _ _ Hu) in Hfail. discriminate Hfail. }
  split; [exact E|]. split; [exact Hlog|]. split; [reflexivity|].
  split; [apply the_request_term|]. split; [reflexivity|].
  split; [apply requested_pages_eq|].
  split.
  { cbn [the_request req_params page].
    pose proof (Z.mod_pos_bound (Z.of_nat (rand rt (S (draws w)))) 10). lia. }
  split; [reflexivity|]. split; [|split; [|split]].
  - intros Hremote. apply Hfail. rewrite Hremote. reflexivity.
  - intros code body Hremote Hcode. apply Hfail. rewrite Hremote.
    cbn [remote_failed]. destruct (code =? 200) eqn:Heq; [|reflexivity].
    apply Z.eqb_eq in Heq. contradiction.
  - intros m Hremote Hphotos. apply Hfail. rewrite Hremote.
    cbn [remote_failed Z.eqb Pos.eqb]. rewrite Hphotos. reflexivity.
  - intros p Hp. exists (Z.to_nat (p - 1)). split; [lia|]. intros k'.
    rewrite requested_pages_eq. cbn [with_draw rand].
    rewrite Nat.eqb_refl.
    pose proof (Nat.mod_upper_bound k' 10 ltac:(discriminate)) as Hlt.
    assert (Hmod : Z.of_nat k' mod 10 = Z.of_nat (k' mod 10)).
    { rewrite Nat2Z.inj_mod. reflexivity. }
    rewrite Hmod. generalize dependent (k' mod 10)%nat. intros q _ Hq.
    split.
    + intros Heq. injection Heq as Heq. lia.
    + intros Heq. f_equal. lia.
Qed.

(* ================================================================== *)
(** ** Facts about the user directory *)
(* ================================================================== *)

Section DirectoryFacts.

Lemma get_user_name_store_user c n w :
  fst (get_user_name c (snd (store_user c n w))) = Ok n.
Proof.
  unfold get_user_name, store_user. cbn [fst snd user_db].
  rewrite lookup_insert_eq. reflexivity.
Qed.

Lemma get_user_name_store_user_other c c' n w :
  c' <> c ->
  fst (get_user_name c' (snd (store_user c n w))) = fst (get_user_name c' w).
Proof.
  intros Hne. unfold get_user_name, store_user. cbn [fst snd user_db].
  rewrite lookup_insert_ne by congruence. reflexivity.
Qed.

(** C10.  For a conversation without an entry, the lookup returns "User",
    which is not the "there" of the captions; it returns normally and
    leaves the world, the directory included, as it was. *)
Theorem get_user_name_unknown c w :
  user_db w !! c = None ->
  get_user_name c w = (Ok "User", w) /\ "User" <> "there".
Proof.
  intros Hnone. unfold get_user_name. rewrite Hnone. split; [reflexivity|discriminate].
Qed.

End DirectoryFacts.

(* ================================================================== *)
(** ** Facts about the interaction sequencer *)
(* ================================================================== *)

Section SequencerFacts.

Variable cfg : config.
Variable rt : runtime.

(** What the [try] leaves behind when the update names its chat: the
    chat identifier is assigned, the directory holds the requester when
    there is one, and a bound placeholder is the message the first
    platform call created. *)
Lemma send_anime_try_cases (u : Update) (chat : Chat.t) wt w r l w1 :
  effective_chat u = Some chat ->
  send_anime_try cfg rt (ObjUpdate u) wt (no_locals, w) = (r, (l, w1)) ->
  l_chat_id l = Some (Chat.id chat) /\
  user_db w1 =
    match effective_user u with
    | Some user => <[Chat.id chat := py_or (first_name user) "there"]> (user_db w)
    | None => user_db w
    end /\
  (forall m, l_status_message l = Some m ->
             bot_api rt (length (bot_log w)) = Some (message_id m)).
Proof.
  intros Hchat.
  unfold send_anime_try, bind, lift, in_world, assign_chat_id,
    assign_status_message, store_user, bot_do, raise, ret.
  cbn [get_effective_chat get_effective_user]. rewrite Hchat.
  cbn [attr fst snd no_locals l_chat_id l_status_message user_db bot_log http_log draws].
  assert (Hdone : forall (r0 : result unit) (l0 : locals) (w0 : world),
    l_chat_id l0 = Some (Chat.id chat) ->
    user_db w0 =
      match effective_user u with
      | Some user => <[Chat.id chat := py_or (first_name user) "there"]> (user_db w)
      | None => user_db w
      end ->
    (forall m, l_status_message l0 = Some m ->
               bot_api rt (length (bot_log w)) = Some (message_id m)) ->
    (r0, (l0, w0)) = (r, (l, w1)) ->
    l_chat_id l = Some (Chat.id chat) /\
    user_db w1 =
      match effective_user u with
      | Some user => <[Chat.id chat := py_or (first_name user) "there"]> (user_db w)
      | None => user_db w
      end /\
    (forall m, l_status_message l = Some m ->
               bot_api rt (length (bot_log w)) = Some (message_id m))).
  { intros r0 l0 w0 H1 H2 H3 H. inversion H; subst. auto. }
  destruct (effective_user u) as [user|]; cbn [attr fst snd].
  2:{ apply Hdone; cbn; auto. discriminate. }
  destruct (bot_api rt (length (bot_log w))) as [i|] eqn:Hsend;
    cbn [fst snd l_chat_id l_status_message message_id].
  2:{ apply Hdone; cbn; auto. discriminate. }
  match goal with |- context [fetch_anime_image cfg rt ?w0] =>
    destruct (fetch_anime_image_spec cfg rt w0) as (d & w' & E & Hdb & Hbot & Hhttp & _);
    rewrite E end.
  cbn [user_db bot_log http_log] in Hdb, Hbot, Hhttp.
  assert (Hst : forall m : Message,
    Some {| message_id := i; text := Some placeholder_text |} = Some m ->
    Some i = Some (message_id m)).
  { intros m Hm. inversion Hm. reflexivity. }
  cbn [fst snd].
  destruct (py_truthy (url d)).
  2:{ apply Hdone; cbn; auto. }
  cbn [fst snd message_id l_chat_id l_status_message user_db bot_log].
  destruct (bot_api rt (length (bot_log w'))); cbn [fst snd].
  2:{ apply Hdone; cbn; auto. }
  cbn [fst snd message_id l_chat_id l_status_message user_db bot_log].
  match goal with |- context [bot_api rt ?n] => destruct (bot_api rt n) end;
    apply Hdone; cbn; auto.
Qed.

(** The [except] block when the chat identifier is assigned: the
    deletion is attempted if a placeholder is bound, its fate is ignored,
    and the degraded reply decides how the block ends. *)
Lemma send_anime_except_bound l w c :
  l_chat_id l = Some c ->
  exists fb w2,
    In fb FALLBACK_IMAGES /\
    send_anime_except cfg rt l w =
      (outcome_of (bot_api rt (length (bot_log w ++ cleanup_calls c l))), w2) /\
    bot_log w2 = bot_log w ++ cleanup_calls c l ++ [degraded_reply cfg rt c fb] /\
    user_db w2 = user_db w /\ http_log w2 = http_log w.
Proof.
  intros Hc.
  unfold send_anime_except, cleanup_calls, degraded_reply, try_except, bind,
    lift, ret, bot_do.
  rewrite Hc. cbn [read_local].
  destruct (l_status_message l) as [m|]; cbn [read_local].
  - set (w1 := {| user_db := user_db w; draws := draws w; http_log := http_log w;
                  bot_log := bot_log w ++ [DeleteMessage c (message_id m)] |}).
    destruct (get_fallback_image_spec rt w1) as (fb & w' & Efb & Hin & F1 & F2 & F3).
    destruct (bot_api rt (length (bot_log w))); cbn [fst snd]; fold w1;
      rewrite Efb; cbn [fst snd]; rewrite F3; subst w1; cbn [bot_log];
      (eexists fb, _; split; [exact Hin|]; split;
       [unfold outcome_of; destruct (bot_api rt _); reflexivity|];
       cbn [bot_log user_db http_log]; rewrite <- ?app_assoc; auto).
  - destruct (get_fallback_image_spec rt w) as (fb & w' & Efb & Hin & F1 & F2 & F3).
    rewrite Efb. cbn [fst snd]. rewrite F3, app_nil_r.
    eexists fb, _. split; [exact Hin|]. split.
    + unfold outcome_of. destruct (bot_api rt _); reflexivity.
    + cbn [bot_log user_db http_log app]. auto.
Qed.

(** The [except] block when the chat identifier was never assigned: the
    deletion fails on the unbound name and is swallowed, a fallback entry
    is drawn, and the send fails on the unbound name before any call. *)
Lemma send_anime_except_unbound l w :
  l_chat_id l = None ->
  exists w2,
    send_anime_except cfg rt l w = (Raise UnboundLocalError, w2) /\
    only_draws w w2.
Proof.
  intros Hc. unfold send_anime_except, try_except, bind, lift, ret.
  rewrite Hc. cbn [read_local].
  destruct (get_fallback_image_spec rt w) as (fb & w' & Efb & Hin & F).
  rewrite Efb. exists w'. auto.
Qed.

(** The directory after a run of the sequencer on an update. *)
Lemma send_anime_user_db (u : Update) (chat : Chat.t) wt w :
  effective_chat u = Some chat ->
  user_db (snd (send_anime_with_channels cfg rt (ObjUpdate u) wt w)) =
    match effective_user u with
    | Some user => <[Chat.id chat := py_or (first_name user) "there"]> (user_db w)
    | None => user_db w
    end.
Proof.
  intros Hchat. unfold send_anime_with_channels.
  destruct (send_anime_try cfg rt (ObjUpdate u) wt (no_locals, w))
    as [r [l w1]] eqn:Etry.
  destruct (send_anime_try_cases u chat wt w r l w1 Hchat Etry) as (Hc & Hdb & _).
  destruct r as [[]|e]; [exact Hdb|].
  destruct (send_anime_except_bound l w1 _ Hc) as (fb & w2 & _ & E & _ & Hdb2 & _).
  rewrite E. cbn [snd]. congruence.
Qed.

(** The sequencer itself, run on an update that names its chat: when a
    statement of its [try] raises, the [except] block attempts the
    deletion of the placeholder if one is bound, then sends the degraded
    reply, and the call ends as that send ends. *)
Lemma send_anime_failure_degrades (u : Update) (chat : Chat.t) wt w e l w1 :
  effective_chat u = Some chat ->
  send_anime_try cfg rt (ObjUpdate u) wt (no_locals, w) = (Raise e, (l, w1)) ->
  exists fb w2,
    In fb FALLBACK_IMAGES /\
    send_anime_with_channels cfg rt (ObjUpdate u) wt w =
      (outcome_of
         (bot_api rt (length (bot_log w1 ++ cleanup_calls (Chat.id chat) l))),
       w2) /\
    bot_log w2 =
      bot_log w1 ++ cleanup_calls (Chat.id chat) l
                 ++ [degraded_reply cfg rt (Chat.id chat) fb] /\
    (forall m, l_status_message l = Some m ->
               bot_api rt (length (bot_log w)) = Some (message_id m)).
Proof.
  intros Hchat Etry.
  destruct (send_anime_try_cases u chat wt w _ l w1 Hchat Etry) as (Hc & _ & Hst).
  destruct (send_anime_except_bound l w1 _ Hc) as (fb & w2 & Hin & E & Hlog & _).
  exists fb, w2. split; [exact Hin|]. split; [|split; [exact Hlog|exact Hst]].
  unfold send_anime_with_channels. rewrite Etry. exact E.
Qed.

(** C6.  After a run of the sequencer for conversation [C] and a
    requester named [N], the directory lookup for [C] returns [N]; the
    lookups for the other conversations are what they were; and a later
    run for the same conversation under another name replaces the entry. *)
Theorem user_directory_last_write_wins (u : Update) (chat : Chat.t)
    (user : User) wt w :
  effective_chat u = Some chat ->
  effective_user u = Some user ->
  first_name user <> "" ->
  let w' := snd (send_anime_with_channels cfg rt (ObjUpdate u) wt w) in
  fst (get_user_name (Chat.id chat) w') = Ok (first_name user) /\
  (forall c', c' <> Chat.id chat ->
              fst (get_user_name c' w') = fst (get_user_name c' w)) /\
  (forall (u2 : Update) (user2 : User) wt2,
     effective_chat u2 = Some chat ->
     effective_user u2 = Some user2 ->
     first_name user2 <> "" ->
     fst (get_user_name (Chat.id chat)
            (snd (send_anime_with_channels cfg rt (ObjUpdate u2) wt2 w')))
     = Ok (first_name user2)).
Proof.
  intros Hchat Huser Hname.
  assert (Hor : forall s, s <> "" -> py_or s "there" = s).
  { intros s Hs. unfold py_or. destruct (String.eqb_spec s ""); congruence. }
  cbv zeta. unfold get_user_name. cbn [fst].
  split; [|split].
  - rewrite (send_anime_user_db u chat wt w Hchat), Huser, lookup_insert_eq.
    cbn [default]. rewrite Hor by assumption. reflexivity.
  - intros c' Hne.
    rewrite (send_anime_user_db u chat wt w Hchat), Huser.
    rewrite lookup_insert_ne by congruence. reflexivity.
  - intros u2 user2 wt2 Hchat2 Huser2 Hname2.
    rewrite (send_anime_user_db u2 chat wt2 _ Hchat2), Huser2, lookup_insert_eq.
    cbn [default]. rewrite Hor by assumption. reflexivity.
Qed.

End SequencerFacts.

(* ================================================================== *)
(** ** Facts about the handlers *)
(* ================================================================== *)

Section HandlerFacts.

Variable cfg : config.
Variable rt : runtime.

(** The full sequence, as a message or photo update runs it when the
    platform answers every call and the image has a URL: record the
    requester, send the placeholder, resolve once, delete the placeholder,
    send the photo with its caption and the keyboard. *)
Lemma send_anime_full_sequence (u : Update) (chat : Chat.t) (user : User)
    wt w i j k d w' :
  let c := Chat.id chat in
  let name := py_or (first_name user) "there" in
  effective_chat u = Some chat ->
  effective_user u = Some user ->
  bot_api rt (length (bot_log w)) = Some i ->
  bot_api rt (S (length (bot_log w))) = Some j ->
  bot_api rt (S (S (length (bot_log w)))) = Some k ->
  fetch_anime_image cfg rt (placeholder_sent c name w) = (Ok d, w') ->
  py_truthy (url d) = true ->
  exists w2,
    send_anime_with_channels cfg rt (ObjUpdate u) wt w = (Ok tt, w2) /\
    user_db w2 = <[c := name]> (user_db w) /\
    http_log w2 = http_log w ++ [the_request cfg rt (placeholder_sent c name w)] /\
    bot_log w2 =
      bot_log w ++
      [ SendMessage c placeholder_text;
        DeleteMessage c i;
        SendPhoto c (url d) (build_caption rt wt name d)
                  (create_channel_keyboard cfg) ].
Proof.
  intros c name Hchat Huser Hsend Hdel Hphoto Hfetch Hurl.
  destruct (fetch_anime_image_spec cfg rt (placeholder_sent c name w))
    as (d0 & w0 & E & Hdb & Hbot & Hhttp & _).
  rewrite Hfetch in E. inversion E; subst d0 w0. clear E.
  cbn [placeholder_sent user_db bot_log http_log] in Hdb, Hbot, Hhttp.
  unfold send_anime_with_channels, send_anime_try, bind, lift, in_world,
    assign_chat_id, assign_status_message, store_user, bot_do, raise, ret.
  cbn [get_effective_chat get_effective_user]. rewrite Hchat, Huser.
  cbn [attr fst snd no_locals l_chat_id l_status_message user_db bot_log
       http_log draws].
  rewrite Hsend. cbn [fst snd l_chat_id l_status_message message_id].
  fold c. fold name. fold (placeholder_sent c name w). rewrite Hfetch.
  cbn [fst snd]. rewrite Hurl.
  cbn [fst snd message_id l_chat_id l_status_message user_db bot_log].
  rewrite Hbot, length_app, Nat.add_comm. cbn [length Nat.add]. rewrite Hdel.
  cbn [fst snd bot_log]. rewrite length_app, length_app, Nat.add_comm.
  cbn [length Nat.add]. rewrite Nat.add_comm. cbn [Nat.add]. rewrite Hphoto.
  eexists. split; [reflexivity|]. cbn [user_db http_log bot_log].
  rewrite <- !app_assoc. cbn [app]. auto.
Qed.

(** C2 (what the code does instead).  On a "get_random" button press the
    handler acknowledges the press and hands the callback query itself to
    the sequencer.  That object has no [effective_chat], so the first
    statement of the sequence raises, and the [except] block fails in turn
    on the chat identifier that was never assigned.  The handler ends with
    an exception; the directory is untouched, no search request leaves,
    and the acknowledgement is the only platform call: no placeholder, no
    image, no reply. *)
Theorem get_random_button_raises (qid : string) (presser : User)
    (chat : option Chat.t) (user : option User) (msg : option Message) w :
  let q := {| query_id := qid; from_user := presser; data := Some "get_random" |} in
  let u := {| effective_chat := chat; effective_user := user;
              message := msg; callback_query := Some q |} in
  exists e w',
    handle_callback_query cfg rt u w = (Raise e, w') /\
    user_db w' = user_db w /\
    http_log w' = http_log w /\
    bot_log w' = bot_log w ++ [AnswerCallbackQuery qid].
Proof.
  cbv zeta. unfold handle_callback_query, bind, lift, bot_do.
  cbn [callback_query attr query_id].
  destruct (bot_api rt (length (bot_log w))).
  2:{ eexists _, _. split; [reflexivity|]. cbn. auto. }
  cbn [data_is data String.eqb Ascii.eqb Bool.eqb].
  match goal with |- context [send_anime_with_channels _ _ _ _ ?w0] =>
    set (w1 := w0) end.
  unfold send_anime_with_channels, send_anime_try, bind, lift.
  cbn [get_effective_chat].
  destruct (send_anime_except_unbound cfg rt no_locals w1 eq_refl)
    as (w2 & E & Hdb & Hhttp & Hbot).
  change (send_anime_except cfg rt no_locals w1 = (Raise UnboundLocalError, w2)) in E.
  exists UnboundLocalError, w2. split; [exact E|].
  rewrite Hdb, Hhttp, Hbot. subst w1. cbn. auto.
Qed.

(** C8.  On a "help" button press no search request leaves and nothing
    that creates a message is called, whatever the platform does; and
    when the acknowledgement of the press succeeds, the handler edits the
    caption of the message that carried the button, setting the condensed
    help text and the same keyboard, and that edit is the only other call. *)
Theorem help_button_edits_in_place (qid : string) (presser : User)
    (chat : option Chat.t) (user : option User) (msg : option Message) w :
  let q := {| query_id := qid; from_user := presser; data := Some "help" |} in
  let u := {| effective_chat := chat; effective_user := user;
              message := msg; callback_query := Some q |} in
  let w' := snd (handle_callback_query cfg rt u w) in
  http_log w' = http_log w /\
  user_db w' = user_db w /\
  draws w' = draws w /\
  forallb (fun c => negb (is_new_message c))
          (skipn (length (bot_log w)) (bot_log w')) = true /\
  (forall i, bot_api rt (length (bot_log w)) = Some i ->
     bot_log w' =
       bot_log w ++
       [ AnswerCallbackQuery qid;
         EditMessageCaption qid (quick_help_text cfg)
                            (create_channel_keyboard cfg) ]).
Proof.
  cbv zeta. unfold handle_callback_query, bind, lift, bot_do, ret.
  cbn [callback_query attr query_id].
  destruct (bot_api rt (length (bot_log w))) as [i0|].
  - cbn [data_is data String.eqb Ascii.eqb Bool.eqb bot_log].
    destruct (bot_api rt (length (bot_log w ++ [AnswerCallbackQuery qid])));
      cbn [fst snd bot_log http_log user_db draws];
      rewrite <- app_assoc; cbn [app];
      repeat (split; [reflexivity|]);
      (split; [rewrite skipn_app, skipn_all, Nat.sub_diag; reflexivity|]);
      intros i _; reflexivity.
  - cbn [fst snd bot_log http_log user_db draws].
    repeat (split; [reflexivity|]).
    split; [rewrite skipn_app, skipn_all, Nat.sub_diag; reflexivity|].
    intros i Hi. discriminate Hi.
Qed.


End HandlerFacts.

(* ================================================================== *)
(** ** Facts about the reply composer *)
(* ================================================================== *)

Lemma string_app_assoc (a b c : string) : (a +:+ b) +:+ c = a +:+ (b +:+ c).
Proof.
  induction a as [|x a IH]; [reflexivity|].
  change (String x ((a +:+ b) +:+ c) = String x (a +:+ (b +:+ c))).
  rewrite IH. reflexivity.
Qed.

Lemma py_or_default (d : string) : py_or "" d = d.
Proof. reflexivity. Qed.

Lemma py_or_given (a : ascii) (s d : string) : py_or (String a s) d = String a s.
Proof. reflexivity. Qed.

Section ComposerFacts.

Variable cfg : config.
Variable rt : runtime.

(** C4.  The caption is made of four parts in this order: the opening,
    the alt text of the image, the attribution line with the name of the
    photographer, and the fixed call to action.  The opening is the
    greeting when one is supplied, and otherwise the salutation with the
    name of the requester, which is "there" when the requester has no
    name. *)
Theorem caption_parts_in_order (welcome_text : option string)
    (first : string) (image_data : ImageData) :
  let user_name := py_or first "there" in
  let opening :=
    if str_truthy welcome_text then default "" welcome_text
    else "🌸 Here's your anime image, " +:+ user_name +:+ "! 🌸" in
  let attribution := "📸 Photo by: " +:+ py_str rt (photographer image_data) in
  build_caption rt welcome_text user_name image_data =
    opening +:+ nl +:+ nl +:+ "🎨 " +:+ py_str rt (alt image_data) +:+ nl
    +:+ attribution +:+ nl +:+ nl +:+ call_to_action /\
  in_order
    [ opening; py_str rt (alt image_data); attribution; call_to_action ]
    (build_caption rt welcome_text user_name image_data) /\
  py_or "" "there" = "there" /\
  (forall a s, first = String a s -> user_name = first).
Proof.
  cbv zeta.
  set (name := py_or first "there").
  set (opening := if str_truthy welcome_text then default "" welcome_text
                  else "🌸 Here's your anime image, " +:+ name +:+ "! 🌸").
  assert (Heq : build_caption rt welcome_text name image_data =
    opening +:+ nl +:+ nl +:+ "🎨 " +:+ py_str rt (alt image_data) +:+ nl
    +:+ ("📸 Photo by: " +:+ py_str rt (photographer image_data))
    +:+ nl +:+ nl +:+ call_to_action).
  { unfold build_caption. subst opening.
    destruct (str_truthy welcome_text); cbv zeta;
      rewrite !string_app_assoc; reflexivity. }
  split; [exact Heq|].
  split; [|split; [reflexivity|intros a s ->; reflexivity]].
  rewrite Heq. cbn [in_order].
  exists "". eexists. split; [reflexivity|].
  exists (nl +:+ nl +:+ "🎨 "). eexists. split.
  { rewrite !string_app_assoc. reflexivity. }
  exists nl. eexists. split; [reflexivity|].
  exists (nl +:+ nl), "". split; [|exact I].
  rewrite !string_app_assoc. reflexivity.
Qed.

(** C5.  The keyboard has exactly two rows of exactly two buttons.  The
    buttons of the first row are links, labelled with the two configured
    channel names; the buttons of the second row are actions, with
    callback data "get_random" and "help". *)
Theorem create_channel_keyboard_layout :
  exists b1 b2 b3 b4,
    inline_keyboard (create_channel_keyboard cfg) = [[b1; b2]; [b3; b4]] /\
    is_link_button b1 = true /\
    label b1 = "🌸 " +:+ MAIN_CHANNEL_NAME cfg /\
    is_link_button b2 = true /\
    label b2 = "💫 " +:+ BACKUP_CHANNEL_NAME cfg /\
    is_action_button b3 "get_random" = true /\
    is_action_button b4 "help" = true.
Proof.
  unfold create_channel_keyboard. cbn [inline_keyboard].
  eexists _, _, _, _. split; [reflexivity|]. repeat split.
Qed.

End ComposerFacts.

(* ================================================================== *)
(** ** Facts about startup *)
(* ================================================================== *)

(** C9 (as amended).  A token or a key that is unset or empty ends the
    process with status 1 before any event is served.  With both present
    the bot starts, and the two channel handles and the two display names
    are the configured values or, for each one left unset, its
    placeholder: none of the four is required. *)
Theorem startup_requires_token_and_key (rt : runtime)
    (environ : gmap string string) (events : list inbound) :
  (str_truthy (getenv environ "TELEGRAM_BOT_TOKEN") = false ->
   run_bot rt environ events = Exited 1) /\
  (str_truthy (getenv environ "PEXELS_API_KEY") = false ->
   run_bot rt environ events = Exited 1) /\
  (str_truthy (getenv environ "TELEGRAM_BOT_TOKEN") = true ->
   str_truthy (getenv environ "PEXELS_API_KEY") = true ->
   exists cfg,
     load_config environ = Loaded cfg /\
     run_bot rt environ events = Served (run_polling cfg rt events initial_world) /\
     getenv environ "TELEGRAM_BOT_TOKEN" = Some (BOT_TOKEN cfg) /\
     getenv environ "PEXELS_API_KEY" = Some (PEXELS_API_KEY cfg) /\
     MAIN_CHANNEL cfg =
       getenv_default environ "MAIN_CHANNEL_USERNAME" "@your_main_channel" /\
     BACKUP_CHANNEL cfg =
       getenv_default environ "BACKUP_CHANNEL_USERNAME" "@your_backup_channel" /\
     MAIN_CHANNEL_NAME cfg =
       getenv_default environ "MAIN_CHANNEL_NAME" "Main Anime Channel" /\
     BACKUP_CHANNEL_NAME cfg =
       getenv_default environ "BACKUP_CHANNEL_NAME" "Backup Anime Channel").
Proof.
  unfold run_bot, load_config.
  destruct (getenv environ "TELEGRAM_BOT_TOKEN") as [token|];
    destruct (getenv environ "PEXELS_API_KEY") as [key|];
    cbn [str_truthy default];
    try destruct (String.eqb token ""); try destruct (String.eqb key "");
    cbn [negb];
    (split; [try reflexivity; discriminate|]);
    (split; [try reflexivity; discriminate|]);
    try (intros H1 H2; discriminate H1 || discriminate H2).
  intros _ _. eexists. split; [reflexivity|]. cbn. repeat split.
Qed.

(* ================================================================== *)
(** ** The statements at concrete inputs *)
(* ================================================================== *)

(** The search answers 500: the resolver returns a fallback entry, whose
    URL is not empty. *)
Lemma fetch_anime_image_never_raises_witness :
  exists d,
    fst (fetch_anime_image sample_cfg rt_http_500 initial_world) = Ok d /\
    In d FALLBACK_IMAGES /\ nonempty_url d.
Proof.
  destruct (fetch_anime_image_never_raises sample_cfg rt_http_500 initial_world)
    as (d & w' & E & Hfail & Hurl & _).
  exists d. rewrite E. split; [reflexivity|].
  split; [apply Hfail; reflexivity|apply Hurl, Hfail; reflexivity].
Defined.

(** C1 as stated fails: the search answers 200 with one photo whose large
    rendition is the empty string, and the resolver returns a descriptor
    with that empty URL. *)
Lemma fetch_anime_image_empty_url :
  fst (fetch_anime_image sample_cfg rt_empty_url initial_world)
  = Ok {| url := JStr ""; photographer := JStr "Ann";
          alt := JStr "Anime-style image" |} /\
  ~ nonempty_url {| url := JStr ""; photographer := JStr "Ann";
                    alt := JStr "Anime-style image" |}.
Proof.
  split; [vm_compute; reflexivity|].
  intros (s & Hs & Hne). cbn [url] in Hs. inversion Hs. congruence.
Qed.

(** The search answers 500: one request left, and the result is a
    fallback entry. *)
Lemma fetch_anime_image_single_request_witness :
  exists d w',
    fetch_anime_image sample_cfg rt_http_500 initial_world = (Ok d, w') /\
    length (http_log w') = 1%nat /\ In d FALLBACK_IMAGES.
Proof.
  destruct (fetch_anime_image_single_request sample_cfg rt_http_500 initial_world)
    as (d & w' & req & E & Hlog & _ & _ & _ & _ & _ & _ & _ & Hstatus & _).
  exists d, w'. split; [exact E|]. split.
  - rewrite Hlog. reflexivity.
  - apply (Hstatus 500 None); [reflexivity|discriminate].
Defined.

(** The sequence for a "get_random" press, evaluated. *)
Example get_random_button_example :
  handle_callback_query sample_cfg rt_ok (button_update "get_random") initial_world
  = (Raise UnboundLocalError,
     {| user_db := ∅; draws := 1%nat; http_log := [];
        bot_log := [AnswerCallbackQuery "q1"] |}).
Proof. vm_compute. reflexivity. Qed.

(** The same runtime and the same requester, with a text message: the
    full sequence runs. *)
Example text_message_example :
  exists w',
    handle_any_message sample_cfg rt_ok text_update initial_world = (Ok tt, w') /\
    user_db w' !! 123 = Some "Aiko" /\
    length (http_log w') = 1%nat /\
    bot_log w' =
      [ SendMessage 123 placeholder_text;
        DeleteMessage 123 100;
        SendPhoto 123 (JStr "https://img.example/1.jpg")
          (build_caption rt_ok None "Aiko"
             {| url := JStr "https://img.example/1.jpg";
                photographer := JStr "Ann"; alt := JStr "A drawing" |})
          (create_channel_keyboard sample_cfg) ].
Proof. eexists. split; [vm_compute; reflexivity|]. repeat split. Qed.

(** The sequencer with a placeholder that cannot be sent: no deletion is
    attempted, the degraded reply goes out, and the call returns. *)
Lemma send_anime_failure_degrades_witness :
  exists fb w2,
    In fb FALLBACK_IMAGES /\
    send_anime_with_channels sample_cfg rt_placeholder_fails
      (ObjUpdate text_update) None initial_world = (Ok tt, w2) /\
    bot_log w2 =
      [ SendMessage 123 placeholder_text;
        degraded_reply sample_cfg rt_placeholder_fails 123 fb ].
Proof.
  destruct (send_anime_failure_degrades sample_cfg rt_placeholder_fails
              text_update chat_123 None initial_world TelegramError
              {| l_chat_id := Some 123; l_status_message := None |}
              (snd (store_user 123 "Aiko"
                 {| user_db := ∅; draws := 0%nat; http_log := [];
                    bot_log := [SendMessage 123 placeholder_text] |}))
              eq_refl eq_refl)
    as (fb & w2 & Hin & E & Hlog & _).
  exists fb, w2. split; [exact Hin|]. split; [exact E|exact Hlog].
Defined.



Lemma caption_parts_in_order_witness :
  in_order
    [ "🌸 Here's your anime image, Aiko! 🌸"; "A drawing";
      "📸 Photo by: Ann"; call_to_action ]
    (build_caption rt_ok None "Aiko"
       {| url := JStr "https://img.example/1.jpg";
          photographer := JStr "Ann"; alt := JStr "A drawing" |}) /\
  py_or "Aiko" "there" = "Aiko".
Proof.
  destruct (caption_parts_in_order rt_ok None "Aiko"
              {| url := JStr "https://img.example/1.jpg";
                 photographer := JStr "Ann"; alt := JStr "A drawing" |})
    as (_ & Horder & _ & Hname).
  split; [exact Horder|]. exact (Hname _ _ eq_refl).
Defined.

Lemma user_directory_last_write_wins_witness :
  fst (get_user_name 123
         (snd (send_anime_with_channels sample_cfg rt_ok
                 (ObjUpdate text_update) None initial_world))) = Ok "Aiko".
Proof.
  destruct (user_directory_last_write_wins sample_cfg rt_ok text_update
              chat_123 aiko None initial_world eq_refl eq_refl
              ltac:(discriminate)) as (Hname & _).
  exact Hname.
Defined.

Lemma help_button_edits_in_place_witness :
  bot_log (snd (handle_callback_query sample_cfg rt_ok (button_update "help")
                  initial_world))
  = [ AnswerCallbackQuery "q1";
      EditMessageCaption "q1" (quick_help_text sample_cfg)
                         (create_channel_keyboard sample_cfg) ].
Proof.
  destruct (help_button_edits_in_place sample_cfg rt_ok "q1" aiko
              (Some chat_123) (Some aiko) None initial_world)
    as (_ & _ & _ & _ & Hedit).
  exact (Hedit 100 eq_refl).
Defined.

Lemma startup_requires_token_and_key_witness :
  run_bot rt_ok environ_no_key [TextMessage text_update] = Exited 1.
Proof.
  destruct (startup_requires_token_and_key rt_ok environ_no_key
              [TextMessage text_update]) as (_ & Hkey & _).
  apply Hkey. vm_compute. reflexivity.
Defined.

(** C9 as stated fails: with a token and a key but no channel handle in
    the environment the process does not exit; it starts with the
    placeholder handles. *)
Lemma channel_handles_have_defaults :
  getenv environ_token_and_key "MAIN_CHANNEL_USERNAME" = None /\
  getenv environ_token_and_key "BACKUP_CHANNEL_USERNAME" = None /\
  load_config environ_token_and_key =
    Loaded {| BOT_TOKEN := "123:abc"; PEXELS_API_KEY := "key";
              MAIN_CHANNEL := "@your_main_channel";
              BACKUP_CHANNEL := "@your_backup_channel";
              MAIN_CHANNEL_NAME := "Main Anime Channel";
              BACKUP_CHANNEL_NAME := "Backup Anime Channel" |}.
Proof. repeat split; vm_compute; reflexivity. Qed.

Lemma get_user_name_unknown_witness :
  get_user_name 123 initial_world = (Ok "User", initial_world).
Proof.
  destruct (get_user_name_unknown 123 initial_world eq_refl) as (Hlookup & _).
  exact Hlookup.
Defined.

(* ================================================================== *)
(** ** Further facts: random choices and the resolver *)
(* ================================================================== *)

Section ChoiceFacts.

Variable rt : runtime.

Lemma random_choice_eq {A : Type} (seq : list A) (d : A) w :
  seq <> [] ->
  random_choice rt seq w =
    (Ok (nth (rand rt (draws w) mod length seq)%nat seq d), drawn 1 w).
Proof.
  destruct seq as [|a seq]; [congruence|]. intros _.
  unfold random_choice, bind, draw, ret, drawn. cbn [Nat.add].
  f_equal. f_equal. apply nth_indep. apply Nat.mod_upper_bound. discriminate.
Qed.

Lemma random_choice_reaches {A : Type} (seq : list A) (x : A) w :
  In x seq ->
  exists r, (r < length seq)%nat /\
            (rand rt (draws w) = r -> fst (random_choice rt seq w) = Ok x).
Proof.
  intros Hin. destruct (In_nth seq x x Hin) as (i & Hi & Hnth).
  exists i. split; [exact Hi|]. intros Hr.
  rewrite (random_choice_eq seq x w) by (intros ->; destruct Hin).
  cbn [fst]. rewrite Hr, Nat.mod_small by exact Hi. rewrite Hnth. reflexivity.
Qed.

End ChoiceFacts.

Lemma random_choice_with_draw {A : Type} (rt : runtime) (seq : list A)
    (d : A) (w : world) (r : nat) :
  seq <> [] ->
  fst (random_choice (with_draw rt (draws w) r) seq w)
  = Ok (nth (r mod length seq)%nat seq d).
Proof.
  intros Hne. rewrite (random_choice_eq _ seq d w Hne). cbn [fst with_draw rand].
  rewrite Nat.eqb_refl. reflexivity.
Qed.

Lemma terms_distinct : List.NoDup ANIME_SEARCH_TERMS.
Proof.
  unfold ANIME_SEARCH_TERMS.
  repeat (constructor;
          [ cbn [In]; intros H;
            repeat (destruct H as [H|H]; [discriminate H|]); exact H | ]).
  constructor.
Qed.

Lemma fallbacks_distinct : List.NoDup FALLBACK_IMAGES.
Proof.
  unfold FALLBACK_IMAGES.
  repeat (constructor;
          [ cbn [In]; intros H;
            repeat (destruct H as [H|H]; [discriminate H|]); exact H | ]).
  constructor.
Qed.

(** The draw decides the choice and nothing else does: in a list without
    repetition, the element [x] is the one chosen exactly when the draw
    falls on the position of [x]. *)
Lemma random_choice_exactly {A : Type} (rt : runtime) (seq : list A)
    (x : A) (w : world) :
  List.NoDup seq -> In x seq ->
  exists r, (r < length seq)%nat /\
    forall r',
      fst (random_choice (with_draw rt (draws w) r') seq w) = Ok x
      <-> (r' mod length seq = r)%nat.
Proof.
  intros Hnodup Hin. destruct (In_nth seq x x Hin) as (i & Hi & Hnth).
  assert (Hne : seq <> []) by (intros ->; destruct Hin).
  exists i. split; [exact Hi|]. intros r'.
  rewrite (random_choice_with_draw rt seq x w r' Hne).
  assert (Hlt : (r' mod length seq < length seq)%nat).
  { apply Nat.mod_upper_bound. lia. }
  split.
  - intros Heq. inversion Heq as [Heq'].
    apply (proj1 (List.NoDup_nth seq x) Hnodup); [exact Hlt|exact Hi|].
    rewrite Hnth. exact Heq'.
  - intros ->. rewrite Hnth. reflexivity.
Qed.

(** The search term is always one of the twenty listed terms, and the
    choice never raises and costs one draw.  The draw is spread evenly
    over the terms: whatever the rest of the runtime, each listed term is
    the one chosen for exactly one of the twenty residues of the draw. *)
Theorem get_random_search_term_support (rt : runtime) w :
  (exists t, get_random_search_term rt w = (Ok t, drawn 1 w) /\
             In t ANIME_SEARCH_TERMS) /\
  (forall t, In t ANIME_SEARCH_TERMS ->
     exists r, (r < 20)%nat /\
       forall r',
         fst (get_random_search_term (with_draw rt (draws w) r') w) = Ok t
         <-> (r' mod 20 = r)%nat).
Proof.
  unfold get_random_search_term. split.
  - rewrite (random_choice_eq rt ANIME_SEARCH_TERMS "" w) by discriminate.
    eexists. split; [reflexivity|]. apply nth_In.
    apply Nat.mod_upper_bound. discriminate.
  - intros t Hin.
    exact (random_choice_exactly rt ANIME_SEARCH_TERMS t w terms_distinct Hin).
Qed.

(** The fallback image is always one of the four bundled entries, and the
    choice never raises and costs one draw.  The draw is spread evenly
    over the entries: whatever the rest of the runtime, each entry is the
    one chosen for exactly one of the four residues of the draw. *)
Theorem get_fallback_image_support (rt : runtime) w :
  (exists d, get_fallback_image rt w = (Ok d, drawn 1 w) /\
             In d FALLBACK_IMAGES) /\
  (forall d, In d FALLBACK_IMAGES ->
     exists r, (r < 4)%nat /\
       forall r',
         fst (get_fallback_image (with_draw rt (draws w) r') w) = Ok d
         <-> (r' mod 4 = r)%nat).
Proof.
  unfold get_fallback_image. split.
  - rewrite (random_choice_eq rt FALLBACK_IMAGES
               {| url := JNull; photographer := JNull; alt := JNull |} w)
      by discriminate.
    eexists. split; [reflexivity|]. apply nth_In.
    apply Nat.mod_upper_bound. discriminate.
  - intros d Hin.
    exact (random_choice_exactly rt FALLBACK_IMAGES d w fallbacks_distinct Hin).
Qed.

Section ResponseFacts.

Variable cfg : config.
Variable rt : runtime.

(** A 200 response whose photo list is not empty and holds only records
    with [src.large] and [photographer] is never discarded: the result is
    made from the photo at the drawn index, after three draws (term, page,
    photo) and without a draw from the fallback list.  A record without
    ['alt'] gets the generic alt text. *)
Theorem fetch_anime_image_uses_response w m l :
  remote rt (length (http_log w)) = Response 200 (Some (JObj m)) ->
  assoc "photos" m = Some (JArr l) ->
  l <> [] ->
  (forall p, In p l -> well_formed_photo p) ->
  let photo := nth (rand rt (2 + draws w) mod length l)%nat l JNull in
  exists d,
    fetch_anime_image cfg rt w = (Ok d, drawn 1 (requested cfg rt w)) /\
    In photo l /\
    made_from photo d /\
    (forall fields, photo = JObj fields -> assoc "alt" fields = None ->
                    alt d = JStr "Anime-style image").
Proof.
  intros Hremote Hphotos Hne Hwf photo.
  assert (Hin : In photo l).
  { apply nth_In. apply Nat.mod_upper_bound. destruct l; [congruence|discriminate]. }
  destruct (Hwf photo Hin) as (src & large & who & Hsrc & Hlarge & Hwho).
  unfold fetch_anime_image, try_except.
  rewrite fetch_anime_image_try_eq, Hremote.
  unfold read_response, bind, lift, ret. cbn [fst snd Z.eqb Pos.eqb].
  cbn [response_json dict_get subscript]. rewrite Hphotos.
  cbn [py_truthy_opt py_truthy py_len].
  destruct l as [|a l']; [congruence|].
  cbn [length Nat.ltb Nat.leb random_choice_json].
  rewrite (random_choice_eq rt (a :: l') JNull (requested cfg rt w)) by discriminate.
  change (draws (requested cfg rt w)) with (2 + draws w)%nat.
  fold photo. rewrite Hsrc, Hlarge, Hwho.
  destruct photo as [| | | | | |fields] eqn:Hphoto; try discriminate Hsrc.
  cbn [dict_get_default].
  eexists. split; [reflexivity|]. split; [exact Hin|]. split.
  - exists src. cbn [url photographer alt dict_get_default]. auto.
  - intros fields' Heq Hnone. inversion Heq; subst fields'.
    cbn [alt]. rewrite Hnone. reflexivity.
Qed.

End ResponseFacts.

(* ================================================================== *)
(** ** Further facts: the keyboard and the configuration *)
(* ================================================================== *)

Lemma remove_char_gone (c : ascii) (s : string) :
  has_char c (remove_char c s) = false.
Proof.
  induction s as [|a s IH]; [reflexivity|].
  cbn [remove_char]. destruct (Ascii.eqb a c) eqn:Hac; [exact IH|].
  cbn [has_char]. rewrite Hac, IH. reflexivity.
Qed.

Lemma remove_char_absent (c : ascii) (s : string) :
  has_char c s = false -> remove_char c s = s.
Proof.
  induction s as [|a s IH]; [reflexivity|].
  cbn [has_char remove_char]. intros H.
  apply orb_false_iff in H as [Hac Hs]. rewrite Hac, IH by exact Hs. reflexivity.
Qed.

(** The two link buttons point to [https://t.me/] followed by the channel
    handle with every [@] removed: no [@] is left in that part, and a
    handle written as [@name] links to [https://t.me/name]. *)
Theorem channel_links_strip_at_signs (cfg : config) :
  exists b1 b2 row2 h1 h2,
    inline_keyboard (create_channel_keyboard cfg) = [[b1; b2]; row2] /\
    link b1 = Some ("https://t.me/" +:+ h1) /\
    link b2 = Some ("https://t.me/" +:+ h2) /\
    has_char "@" h1 = false /\ has_char "@" h2 = false /\
    (forall name, has_char "@" name = false ->
       MAIN_CHANNEL cfg = String "@" name -> h1 = name) /\
    (forall name, has_char "@" name = false ->
       BACKUP_CHANNEL cfg = String "@" name -> h2 = name).
Proof.
  unfold create_channel_keyboard. cbn [inline_keyboard].
  eexists _, _, _, _, _. split; [reflexivity|]. cbn [link].
  split; [reflexivity|]. split; [reflexivity|].
  split; [apply remove_char_gone|]. split; [apply remove_char_gone|].
  split; intros name Hname ->; cbn [remove_char Ascii.eqb Bool.eqb];
    apply remove_char_absent; exact Hname.
Qed.

(** Startup reads six variables and nothing else: two environments that
    agree on them start (or stop) the bot in the same way. *)
Theorem load_config_reads_six_variables (e1 e2 : gmap string string) :
  (forall k,
     In k [ "TELEGRAM_BOT_TOKEN"; "PEXELS_API_KEY"; "MAIN_CHANNEL_USERNAME";
            "BACKUP_CHANNEL_USERNAME"; "MAIN_CHANNEL_NAME";
            "BACKUP_CHANNEL_NAME" ] ->
     e1 !! k = e2 !! k) ->
  load_config e1 = load_config e2.
Proof.
  intros Hagree. unfold load_config, getenv, getenv_default.
  rewrite !Hagree by (cbn [In]; tauto). reflexivity.
Qed.

(* ================================================================== *)
(** ** Further facts: the paths through the sequencer *)
(* ================================================================== *)

Section PathFacts.

Variable cfg : config.
Variable rt : runtime.

(** The [try] of the sequencer, once the placeholder [i] is sent and the
    resolver has returned [d]. *)
Lemma send_anime_try_eval (u : Update) (chat : Chat.t) (user : User)
    wt w i d w' :
  let c := Chat.id chat in
  let name := py_or (first_name user) "there" in
  effective_chat u = Some chat ->
  effective_user u = Some user ->
  bot_api rt (length (bot_log w)) = Some i ->
  fetch_anime_image cfg rt (placeholder_sent c name w) = (Ok d, w') ->
  bot_log w' = bot_log w ++ [SendMessage c placeholder_text] /\
  user_db w' = <[c := name]> (user_db w) /\
  http_log w' = http_log w ++ [the_request cfg rt (placeholder_sent c name w)] /\
  send_anime_try cfg rt (ObjUpdate u) wt (no_locals, w) =
    let l := locals_after_placeholder c i in
    let del := DeleteMessage c i in
    let photo := SendPhoto c (url d) (build_caption rt wt name d)
                           (create_channel_keyboard cfg) in
    if py_truthy (url d) then
      match bot_api rt (S (length (bot_log w))) with
      | None => (Raise TelegramError, (l, log_call del w'))
      | Some _ =>
          match bot_api rt (S (S (length (bot_log w)))) with
          | None => (Raise TelegramError, (l, log_call photo (log_call del w')))
          | Some _ => (Ok tt, (l, log_call photo (log_call del w')))
          end
      end
    else (Raise (Exception "No image data received"), (l, w')).
Proof.
  intros c name Hchat Huser Hsend Hfetch.
  destruct (fetch_anime_image_spec cfg rt (placeholder_sent c name w))
    as (d0 & w0 & E & Hdb & Hbot & Hhttp & _).
  rewrite Hfetch in E. inversion E; subst d0 w0. clear E.
  cbn [placeholder_sent user_db bot_log http_log] in Hdb, Hbot.
  split; [exact Hbot|]. split; [exact Hdb|]. split; [exact Hhttp|].
  unfold send_anime_try, bind, lift, in_world, assign_chat_id,
    assign_status_message, store_user, bot_do, raise, ret.
  cbn [get_effective_chat get_effective_user]. rewrite Hchat, Huser.
  cbn [attr fst snd no_locals l_chat_id l_status_message user_db bot_log
       http_log draws].
  rewrite Hsend. cbn [fst snd l_chat_id l_status_message message_id].
  fold c. fold name. fold (placeholder_sent c name w). rewrite Hfetch.
  cbn [fst snd]. cbv zeta. destruct (py_truthy (url d)); [|reflexivity].
  cbn [fst snd message_id l_chat_id l_status_message user_db bot_log].
  rewrite Hbot, length_app, Nat.add_comm. cbn [length Nat.add].
  destruct (bot_api rt (S (length (bot_log w)))); [|rewrite <- Hbot; reflexivity].
  cbn [fst snd bot_log]. rewrite length_app, length_app, Nat.add_comm.
  cbn [length Nat.add]. rewrite Nat.add_comm. cbn [Nat.add].
  destruct (bot_api rt (S (S (length (bot_log w))))); rewrite <- Hbot; reflexivity.
Qed.

(** The resolver hands back a descriptor whose URL is empty, null or
    zero: the sequencer sends no photo with it.  It deletes the
    placeholder once and sends the degraded reply; the requester stays
    recorded. *)
Theorem empty_url_takes_degraded_path (u : Update) (chat : Chat.t)
    (user : User) wt w i d w' :
  let c := Chat.id chat in
  let name := py_or (first_name user) "there" in
  effective_chat u = Some chat ->
  effective_user u = Some user ->
  bot_api rt (length (bot_log w)) = Some i ->
  fetch_anime_image cfg rt (placeholder_sent c name w) = (Ok d, w') ->
  py_truthy (url d) = false ->
  exists fb w2,
    In fb FALLBACK_IMAGES /\
    send_anime_with_channels cfg rt (ObjUpdate u) wt w =
      (outcome_of (bot_api rt (2 + length (bot_log w))), w2) /\
    bot_log w2 =
      bot_log w ++ [ SendMessage c placeholder_text; DeleteMessage c i;
                     degraded_reply cfg rt c fb ] /\
    user_db w2 = <[c := name]> (user_db w).
Proof.
  intros c name Hchat Huser Hsend Hfetch Hurl.
  destruct (send_anime_try_eval u chat user wt w i d w' Hchat Huser Hsend Hfetch)
    as (Hbot & Hdb & _ & Etry).
  fold c in Hbot, Hdb, Etry. fold name in Hdb, Etry. cbv zeta in Etry.
  rewrite Hurl in Etry.
  destruct (send_anime_except_bound cfg rt (locals_after_placeholder c i) w' c eq_refl)
    as (fb & w2 & Hin & E & Hlog & Hdb2 & _).
  exists fb, w2. split; [exact Hin|].
  unfold send_anime_with_channels. rewrite Etry, E.
  cbn [cleanup_calls locals_after_placeholder l_status_message message_id] in *.
  split; [|split].
  - do 2 f_equal. rewrite Hbot, !length_app. cbn [length]. f_equal. lia.
  - rewrite Hlog, Hbot, <- app_assoc. reflexivity.
  - congruence.
Qed.

(** The placeholder cannot be deleted: the image that was fetched is
    never sent.  The deletion is attempted a second time and the degraded
    reply goes out in place of the image. *)
Theorem failed_deletion_discards_image (u : Update) (chat : Chat.t)
    (user : User) wt w i d w' :
  let c := Chat.id chat in
  let name := py_or (first_name user) "there" in
  effective_chat u = Some chat ->
  effective_user u = Some user ->
  bot_api rt (length (bot_log w)) = Some i ->
  fetch_anime_image cfg rt (placeholder_sent c name w) = (Ok d, w') ->
  py_truthy (url d) = true ->
  bot_api rt (S (length (bot_log w))) = None ->
  exists fb w2,
    In fb FALLBACK_IMAGES /\
    send_anime_with_channels cfg rt (ObjUpdate u) wt w =
      (outcome_of (bot_api rt (3 + length (bot_log w))), w2) /\
    bot_log w2 =
      bot_log w ++ [ SendMessage c placeholder_text; DeleteMessage c i;
                     DeleteMessage c i; degraded_reply cfg rt c fb ].
Proof.
  intros c name Hchat Huser Hsend Hfetch Hurl Hdel.
  destruct (send_anime_try_eval u chat user wt w i d w' Hchat Huser Hsend Hfetch)
    as (Hbot & _ & _ & Etry).
  fold c in Hbot, Etry. fold name in Etry. cbv zeta in Etry.
  rewrite Hurl, Hdel in Etry.
  destruct (send_anime_except_bound cfg rt (locals_after_placeholder c i)
              (log_call (DeleteMessage c i) w') c eq_refl)
    as (fb & w2 & Hin & E & Hlog & _).
  exists fb, w2. split; [exact Hin|].
  unfold send_anime_with_channels. rewrite Etry, E.
  cbn [cleanup_calls locals_after_placeholder l_status_message message_id
       log_call bot_log] in *.
  split.
  - do 2 f_equal. rewrite Hbot, !length_app. cbn [length]. f_equal. lia.
  - rewrite Hlog, Hbot, <- !app_assoc. reflexivity.
Qed.

(** The photo cannot be sent after the placeholder was deleted: the
    deletion of the same message is attempted once more, and the degraded
    reply follows. *)
Theorem failed_photo_deletes_twice (u : Update) (chat : Chat.t)
    (user : User) wt w i j d w' :
  let c := Chat.id chat in
  let name := py_or (first_name user) "there" in
  effective_chat u = Some chat ->
  effective_user u = Some user ->
  bot_api rt (length (bot_log w)) = Some i ->
  fetch_anime_image cfg rt (placeholder_sent c name w) = (Ok d, w') ->
  py_truthy (url d) = true ->
  bot_api rt (S (length (bot_log w))) = Some j ->
  bot_api rt (S (S (length (bot_log w)))) = None ->
  exists fb w2,
    In fb FALLBACK_IMAGES /\
    send_anime_with_channels cfg rt (ObjUpdate u) wt w =
      (outcome_of (bot_api rt (4 + length (bot_log w))), w2) /\
    bot_log w2 =
      bot_log w ++
      [ SendMessage c placeholder_text; DeleteMessage c i;
        SendPhoto c (url d) (build_caption rt wt name d)
                  (create_channel_keyboard cfg);
        DeleteMessage c i; degraded_reply cfg rt c fb ].
Proof.
  intros c name Hchat Huser Hsend Hfetch Hurl Hdel Hphoto.
  destruct (send_anime_try_eval u chat user wt w i d w' Hchat Huser Hsend Hfetch)
    as (Hbot & _ & _ & Etry).
  fold c in Hbot, Etry. fold name in Etry. cbv zeta in Etry.
  rewrite Hurl, Hdel, Hphoto in Etry.
  match type of Etry with _ = (_, (_, ?w1)) =>
    destruct (send_anime_except_bound cfg rt (locals_after_placeholder c i)
                w1 c eq_refl) as (fb & w2 & Hin & E & Hlog & _)
  end.
  exists fb, w2. split; [exact Hin|].
  unfold send_anime_with_channels. rewrite Etry, E.
  cbn [cleanup_calls locals_after_placeholder l_status_message message_id
       log_call bot_log] in *.
  split.
  - do 2 f_equal. rewrite Hbot, !length_app. cbn [length]. f_equal. lia.
  - rewrite Hlog, Hbot, <- !app_assoc. reflexivity.
Qed.

(** The sequencer cannot reply when it cannot tell the chat: for a
    callback query, and for an update without a chat, it ends with
    [UnboundLocalError], no platform call is made and no request sent,
    and the directory is untouched. *)
Theorem send_anime_without_chat_raises (update : pyobj) wt w :
  (forall chat, get_effective_chat update <> Ok (Some chat)) ->
  exists w2,
    send_anime_with_channels cfg rt update wt w = (Raise UnboundLocalError, w2) /\
    only_draws w w2.
Proof.
  intros Hnochat.
  assert (Etry : exists e,
    send_anime_try cfg rt update wt (no_locals, w) = (Raise e, (no_locals, w))).
  { unfold send_anime_try, bind, lift.
    destruct update as [u|q]; cbn [get_effective_chat] in *.
    - destruct (effective_chat u) as [chat|]; [exfalso; exact (Hnochat chat eq_refl)|].
      exists AttributeError. reflexivity.
    - exists AttributeError. reflexivity. }
  destruct Etry as (e & Etry).
  destruct (send_anime_except_unbound cfg rt no_locals w eq_refl) as (w2 & E & F).
  exists w2. unfold send_anime_with_channels. rewrite Etry. auto.
Qed.

(** [/start] from a named requester, with the platform answering and a
    usable image: the requester is recorded, the placeholder is sent and
    deleted, and the photo goes out under a caption that opens with the
    welcome addressed to the requester, followed by alt text, attribution
    and call to action. *)
Theorem start_command_greets_by_name (u : Update) (chat : Chat.t)
    (user : User) w i j k d w' :
  let c := Chat.id chat in
  let name := py_or (first_name user) "there" in
  effective_chat u = Some chat ->
  effective_user u = Some user ->
  bot_api rt (length (bot_log w)) = Some i ->
  bot_api rt (S (length (bot_log w))) = Some j ->
  bot_api rt (S (S (length (bot_log w)))) = Some k ->
  fetch_anime_image cfg rt (placeholder_sent c name w) = (Ok d, w') ->
  py_truthy (url d) = true ->
  exists w2 caption,
    start_command cfg rt u w = (Ok tt, w2) /\
    user_db w2 !! c = Some name /\
    bot_log w2 =
      bot_log w ++
      [ SendMessage c placeholder_text; DeleteMessage c i;
        SendPhoto c (url d) caption (create_channel_keyboard cfg) ] /\
    caption =
      "🌸 Welcome " +:+ name +:+ "! 🌸" +:+ nl +:+ nl
      +:+ "✨ I'm your personal anime bot! Every time you send me a message or photo, I'll respond with a beautiful anime image and show you our amazing channels!"
      +:+ nl +:+ nl +:+ "🎨 " +:+ py_str rt (alt d) +:+ nl
      +:+ "📸 Photo by: " +:+ py_str rt (photographer d) +:+ nl +:+ nl
      +:+ call_to_action.
Proof.
  intros c name Hchat Huser Hsend Hdel Hphoto Hfetch Hurl.
  destruct (send_anime_full_sequence cfg rt u chat user
              (Some (welcome_for name)) w i j k d w'
              Hchat Huser Hsend Hdel Hphoto Hfetch Hurl)
    as (w2 & E & Hdb & _ & Hlog).
  exists w2, (build_caption rt (Some (welcome_for name)) name d).
  split; [|split; [|split]].
  - unfold start_command, bind, lift. rewrite Hchat, Huser. cbn [attr].
    exact E.
  - fold c name in Hdb. rewrite Hdb. apply lookup_insert_eq.
  - exact Hlog.
  - unfold build_caption, welcome_for, default. cbn [str_truthy from_option].
    unfold id.
    change (String.eqb ("🌸 Welcome " +:+ name +:+ "! 🌸" +:+ nl +:+ nl
      +:+ "✨ I'm your personal anime bot! Every time you send me a message or photo, I'll respond with a beautiful anime image and show you our amazing channels!") "")
      with false.
    cbn [negb]. cbv zeta. rewrite !string_app_assoc. reflexivity.
Qed.

(** A text or photo update without a sender gets no answer at all: the
    handler raises before the sequence starts, so not even the degraded
    reply is sent.  A text update also needs its message and the text of
    it; with them, text and photo updates are handled alike, by the
    sequencer without a greeting. *)
Theorem message_handlers_guard (u : Update) w :
  (effective_user u = None ->
   handle_any_message cfg rt u w = (Raise AttributeError, w) /\
   handle_photo cfg rt u w = (Raise AttributeError, w)) /\
  (forall user, effective_user u = Some user ->
     handle_photo cfg rt u w =
       send_anime_with_channels cfg rt (ObjUpdate u) None w /\
     (message u = None ->
      handle_any_message cfg rt u w = (Raise AttributeError, w)) /\
     (forall m, message u = Some m -> text m = None ->
        handle_any_message cfg rt u w = (Raise TypeError, w)) /\
     (forall m t, message u = Some m -> text m = Some t ->
        handle_any_message cfg rt u w =
          send_anime_with_channels cfg rt (ObjUpdate u) None w)).
Proof.
  unfold handle_any_message, handle_photo, bind, lift. split.
  - intros ->. split; reflexivity.
  - intros user ->. cbn [attr]. split; [reflexivity|]. split; [|split].
    + intros ->. reflexivity.
    + intros m -> Ht. cbn [attr]. rewrite Ht. reflexivity.
    + intros m t -> Ht. cbn [attr]. rewrite Ht. reflexivity.
Qed.

(** [/help] answers with one Markdown text reply to the message that
    carried the command and does nothing else: no search, no directory
    write, no draw.  Without a message on the update it raises and calls
    nothing. *)
Theorem help_command_replies_once (u : Update) w :
  (message u = None -> help_command cfg rt u w = (Raise AttributeError, w)) /\
  (forall m, message u = Some m ->
     help_command cfg rt u w =
       (outcome_of (bot_api rt (length (bot_log w))),
        log_call (ReplyText (message_id m) (help_text cfg) "Markdown") w)).
Proof.
  unfold help_command, bind, lift, bot_do, ret, log_call, outcome_of. split.
  - intros ->. reflexivity.
  - intros m ->. cbn [attr]. destruct (bot_api rt (length (bot_log w))); reflexivity.
Qed.

(** A button whose data is neither "get_random" nor "help" is
    acknowledged and nothing more; an update without a callback query
    raises before any call. *)
Theorem other_buttons_only_acknowledged (u : Update) w :
  (callback_query u = None ->
   handle_callback_query cfg rt u w = (Raise AttributeError, w)) /\
  (forall q, callback_query u = Some q ->
     data_is q "get_random" = false -> data_is q "help" = false ->
     handle_callback_query cfg rt u w =
       (outcome_of (bot_api rt (length (bot_log w))),
        log_call (AnswerCallbackQuery (query_id q)) w)).
Proof.
  unfold handle_callback_query, bind, lift, bot_do, ret, log_call, outcome_of.
  split.
  - intros ->. reflexivity.
  - intros q -> Hrandom Hhelp. cbn [attr]. rewrite Hrandom, Hhelp.
    destruct (bot_api rt (length (bot_log w))); reflexivity.
Qed.

(** A requester whose first name is empty is recorded as "there": after
    the sequence a lookup of the conversation returns "there", not the
    "User" it returns for an unknown conversation. *)
Theorem nameless_requester_recorded_as_there (u : Update) (chat : Chat.t)
    (user : User) wt w :
  effective_chat u = Some chat ->
  effective_user u = Some user ->
  first_name user = "" ->
  get_user_name (Chat.id chat)
    (snd (send_anime_with_channels cfg rt (ObjUpdate u) wt w))
  = (Ok "there", snd (send_anime_with_channels cfg rt (ObjUpdate u) wt w)).
Proof.
  intros Hchat Huser Hname. unfold get_user_name.
  rewrite (send_anime_user_db cfg rt u chat wt w Hchat), Huser, Hname.
  rewrite lookup_insert_eq. reflexivity.
Qed.

End PathFacts.

(* ================================================================== *)
(** ** Further facts: the help texts *)
(* ================================================================== *)

Lemma in_order_prefix (parts : list string) (pre s : string) :
  in_order parts s -> in_order parts (pre +:+ s).
Proof.
  destruct parts as [|p ps]; [intros _; exact I|].
  cbn [in_order]. intros (before & after & -> & Hrest).
  exists (pre +:+ before), after. split; [|exact Hrest].
  rewrite string_app_assoc. reflexivity.
Qed.

Lemma in_order_concat_skip (parts : list string) (sep x : string)
    (ls : list string) :
  in_order parts (String.concat sep ls) ->
  in_order parts (String.concat sep (x :: ls)).
Proof.
  destruct ls as [|y ls].
  - destruct parts as [|p ps]; [intros _; exact I|].
    cbn [in_order String.concat]. intros (before & after & Heq & Hrest).
    destruct before; [|discriminate Heq].
    destruct p; [|discriminate Heq]. destruct after; [|discriminate Heq].
    exists x, "". split; [|exact Hrest].
    clear. induction x as [|a x IH]; [reflexivity|].
    change (String a x = String a (x +:+ "" +:+ "")). f_equal. exact IH.
  - intros H. change (String.concat sep (x :: y :: ls))
      with (x +:+ sep +:+ String.concat sep (y :: ls)).
    apply in_order_prefix, in_order_prefix. exact H.
Qed.

Lemma in_order_concat_take (parts : list string) (sep x y : string)
    (ls : list string) :
  in_order parts (String.concat sep (y :: ls)) ->
  in_order (x :: parts) (String.concat sep (x :: y :: ls)).
Proof.
  intros H. cbn [in_order].
  exists "", (sep +:+ String.concat sep (y :: ls)). split; [reflexivity|].
  apply in_order_prefix. exact H.
Qed.

(** Both help texts name the two configured channel handles, the main
    channel before the backup channel. *)
Theorem help_texts_name_both_channels (cfg : config) :
  in_order [ "• Main: " +:+ MAIN_CHANNEL cfg; "• Backup: " +:+ BACKUP_CHANNEL cfg ]
           (help_text cfg) /\
  in_order [ "• Main: " +:+ MAIN_CHANNEL cfg; "• Backup: " +:+ BACKUP_CHANNEL cfg ]
           (quick_help_text cfg).
Proof.
  unfold help_text, quick_help_text. split.
  - do 19 apply in_order_concat_skip.
    apply in_order_concat_take, in_order_concat_take. exact I.
  - do 6 apply in_order_concat_skip.
    apply in_order_concat_take, in_order_concat_take. exact I.
Qed.

(* ================================================================== *)
(** ** Further facts: what serving events keeps true *)
(* ================================================================== *)

(** *** Rules for computations that respect a preorder on worlds *)

Section Respect.

Context {St : Type} (R : world -> world -> Prop) (proj : St -> world).
Hypothesis R_refl : forall w, R w w.
Hypothesis R_trans : forall w1 w2 w3, R w1 w2 -> R w2 w3 -> R w1 w3.

Lemma respects_ret {A : Type} (a : A) : respects R proj (ret a).
Proof. intros s. apply R_refl. Qed.

Lemma respects_raise {A : Type} (e : exn) : respects R proj (@raise St A e).
Proof. intros s. apply R_refl. Qed.

Lemma respects_lift {A : Type} (r : result A) : respects R proj (lift r).
Proof. intros s. apply R_refl. Qed.

Lemma respects_bind {A B : Type} (m : M St A) (k : A -> M St B) :
  respects R proj m -> (forall a, respects R proj (k a)) ->
  respects R proj (bind m k).
Proof.
  intros Hm Hk s. unfold bind. specialize (Hm s).
  destruct (m s) as [[a|e] s']; cbn [snd] in *; [|exact Hm].
  eapply R_trans; [exact Hm|apply Hk].
Qed.

Lemma respects_try_except {A : Type} (body : M St A) (handler : exn -> M St A) :
  respects R proj body -> (forall e, respects R proj (handler e)) ->
  respects R proj (try_except body handler).
Proof.
  intros Hb Hh s. unfold try_except. specialize (Hb s).
  destruct (body s) as [[a|e] s']; cbn [snd] in *; [exact Hb|].
  eapply R_trans; [exact Hb|apply Hh].
Qed.

End Respect.

Lemma respects_weaken {St A : Type} (R R' : world -> world -> Prop)
    (proj : St -> world) (m : M St A) :
  (forall w w', R w w' -> R' w w') -> respects R proj m -> respects R' proj m.
Proof. intros Himp Hm s. apply Himp, Hm. Qed.

Lemma respects_in_world {A : Type} (R : world -> world -> Prop) (m : M world A) :
  respects R (fun w => w) m -> respects R snd (in_world m).
Proof.
  intros Hm [l w]. unfold in_world. cbn [fst snd]. specialize (Hm w).
  destruct (m w) as [r w1]. exact Hm.
Qed.

(** *** The three relations are preorders, and [quiet] is the finest *)

Lemma quiet_refl w : quiet w w.
Proof. repeat split. exists []. rewrite app_nil_r. reflexivity. Qed.

Lemma quiet_trans w1 w2 w3 : quiet w1 w2 -> quiet w2 w3 -> quiet w1 w3.
Proof.
  intros (D1 & H1 & b1 & B1) (D2 & H2 & b2 & B2).
  split; [congruence|]. split; [congruence|].
  exists (b1 ++ b2). rewrite B2, B1, app_assoc. reflexivity.
Qed.

Lemma same_requests_refl w : same_requests w w.
Proof. reflexivity. Qed.

Lemma same_requests_trans w1 w2 w3 :
  same_requests w1 w2 -> same_requests w2 w3 -> same_requests w1 w3.
Proof. unfold same_requests. congruence. Qed.

Lemma evolves_refl cfg w : evolves cfg w w.
Proof.
  split; [exists []; rewrite app_nil_r; auto|].
  split; [exists []; rewrite app_nil_r; auto|]. auto.
Qed.

Lemma evolves_trans cfg w1 w2 w3 :
  evolves cfg w1 w2 -> evolves cfg w2 w3 -> evolves cfg w1 w3.
Proof.
  intros ((h1 & H1 & G1) & (b1 & B1) & P1 & N1) ((h2 & H2 & G2) & (b2 & B2) & P2 & N2).
  split; [|split; [|split]].
  - exists (h1 ++ h2). rewrite H2, H1, app_assoc. split; [reflexivity|].
    apply Forall_app. auto.
  - exists (b1 ++ b2). rewrite B2, B1, app_assoc. reflexivity.
  - auto.
  - intros c n Hn. destruct (N2 c n Hn) as [Hn'|Hn']; [auto|right; exact Hn'].
Qed.

Lemma quiet_same_requests w w' : quiet w w' -> same_requests w w'.
Proof. intros (_ & H & _). exact H. Qed.

Lemma quiet_evolves cfg w w' : quiet w w' -> evolves cfg w w'.
Proof.
  intros (D & H & B). split; [exists []; rewrite app_nil_r; auto|].
  split; [exact B|]. rewrite D. auto.
Qed.

Lemma only_draws_quiet w w' : only_draws w w' -> quiet w w'.
Proof.
  intros (D & H & B). split; [exact D|]. split; [exact H|].
  exists []. rewrite app_nil_r. exact B.
Qed.

Section ServingFacts.

Variable cfg : config.
Variable rt : runtime.

(** *** The quiet steps *)

Lemma bot_do_quiet (c : bot_call) : respects quiet (fun w => w) (bot_do rt c).
Proof.
  intros w. unfold bot_do.
  destruct (bot_api rt (length (bot_log w))); cbn [snd];
    (split; [reflexivity|]; split; [reflexivity|]; exists [c]; reflexivity).
Qed.

Lemma get_fallback_image_quiet : respects quiet (fun w => w) (get_fallback_image rt).
Proof.
  intros w. destruct (get_fallback_image_spec rt w) as (d & w' & E & _ & F).
  rewrite E. apply only_draws_quiet, F.
Qed.

Lemma send_anime_except_quiet (l : locals) :
  respects quiet (fun w => w) (send_anime_except cfg rt l).
Proof.
  unfold send_anime_except.
  repeat first
    [ apply (respects_bind quiet _ quiet_trans); [|intros]
    | apply (respects_try_except quiet _ quiet_trans); [|intros]
    | apply (respects_ret quiet _ quiet_refl)
    | apply (respects_lift quiet _ quiet_refl)
    | apply bot_do_quiet
    | apply get_fallback_image_quiet ].
Qed.

Lemma help_command_quiet (u : Update) :
  respects quiet (fun w => w) (help_command cfg rt u).
Proof.
  unfold help_command.
  repeat first
    [ apply (respects_bind quiet _ quiet_trans); [|intros]
    | apply (respects_ret quiet _ quiet_refl)
    | apply (respects_lift quiet _ quiet_refl)
    | apply bot_do_quiet ].
Qed.

(** *** The sequencer: the directory and the requests *)

Lemma py_or_nonempty (s : string) : py_or s "there" <> "".
Proof.
  unfold py_or. destruct (String.eqb_spec s ""); [discriminate|assumption].
Qed.

Lemma store_user_evolves (c : Z) (name : string) :
  name <> "" -> respects (evolves cfg) (fun w => w) (store_user c name).
Proof.
  intros Hname w. unfold store_user. cbn [snd].
  split; [exists []; rewrite app_nil_r; auto|].
  split; [exists []; rewrite app_nil_r; auto|]. cbn [user_db]. split.
  - intros c' Hc'. destruct (decide (c = c')) as [->|Hne].
    + rewrite lookup_insert_eq. eauto.
    + rewrite lookup_insert_ne by exact Hne. exact Hc'.
  - intros c' n. destruct (decide (c = c')) as [->|Hne].
    + rewrite lookup_insert_eq. intros [= <-]. right. exact Hname.
    + rewrite lookup_insert_ne by exact Hne. auto.
Qed.

Lemma store_user_same_requests (c : Z) (name : string) :
  respects same_requests (fun w => w) (store_user c name).
Proof. intros w. reflexivity. Qed.

Lemma the_request_good w : good_request cfg (the_request cfg rt w).
Proof.
  unfold good_request. cbn [the_request req_url req_headers req_params query
    per_page page orientation req_timeout].
  split; [reflexivity|]. split; [reflexivity|].
  split; [apply (the_request_term cfg rt w)|]. split; [reflexivity|].
  split; [|split; reflexivity].
  pose proof (Z.mod_pos_bound (Z.of_nat (rand rt (S (draws w)))) 10). lia.
Qed.

Lemma fetch_anime_image_evolves :
  respects (evolves cfg) (fun w => w) (fetch_anime_image cfg rt).
Proof.
  intros w. destruct (fetch_anime_image_spec cfg rt w)
    as (d & w' & E & Hdb & Hbot & Hhttp & _).
  rewrite E. cbn [snd]. split; [|split; [|rewrite Hdb; auto]].
  - exists [the_request cfg rt w]. split; [exact Hhttp|].
    constructor; [apply the_request_good|constructor].
  - exists []. rewrite app_nil_r. exact Hbot.
Qed.

Lemma fetch_anime_image_one_request :
  at_most_one_request (fun w => w) (fetch_anime_image cfg rt).
Proof.
  intros w. destruct (fetch_anime_image_spec cfg rt w)
    as (d & w' & E & _ & _ & Hhttp & _).
  rewrite E. cbn [snd]. rewrite Hhttp, length_app. cbn [length]. lia.
Qed.

Lemma one_request_bind_after {St A B : Type} (proj : St -> world)
    (m : M St A) (k : A -> M St B) :
  respects same_requests proj m ->
  (forall a, at_most_one_request proj (k a)) ->
  at_most_one_request proj (bind m k).
Proof.
  intros Hm Hk s. unfold bind. specialize (Hm s). unfold same_requests in Hm.
  destruct (m s) as [[a|e] s']; cbn [snd] in *.
  - rewrite <- Hm. apply Hk.
  - rewrite Hm. lia.
Qed.

Lemma one_request_bind_before {St A B : Type} (proj : St -> world)
    (m : M St A) (k : A -> M St B) :
  at_most_one_request proj m ->
  (forall a, respects same_requests proj (k a)) ->
  at_most_one_request proj (bind m k).
Proof.
  intros Hm Hk s. unfold bind. specialize (Hm s).
  destruct (m s) as [[a|e] s']; cbn [snd] in *; [|exact Hm].
  specialize (Hk a s'). unfold same_requests in Hk. rewrite Hk. exact Hm.
Qed.

Lemma one_request_of_same {St A : Type} (proj : St -> world) (m : M St A) :
  respects same_requests proj m -> at_most_one_request proj m.
Proof. intros Hm s. specialize (Hm s). unfold same_requests in Hm. rewrite Hm. lia. Qed.

Lemma one_request_in_world {A : Type} (m : M world A) :
  at_most_one_request (fun w => w) m -> at_most_one_request snd (in_world m).
Proof.
  intros Hm [l w]. unfold in_world. cbn [fst snd]. specialize (Hm w).
  destruct (m w) as [r w1]. exact Hm.
Qed.

Lemma assign_chat_id_respects (R : world -> world -> Prop) (c : Z) :
  (forall w, R w w) -> respects R snd (assign_chat_id c).
Proof. intros Hrefl s. apply Hrefl. Qed.

Lemma assign_status_message_respects (R : world -> world -> Prop) (m : Message) :
  (forall w, R w w) -> respects R snd (assign_status_message m).
Proof. intros Hrefl s. apply Hrefl. Qed.

Ltac quiet_step R Rrefl Rweak :=
  first
    [ apply (respects_ret R _ Rrefl)
    | apply (respects_raise R _ Rrefl)
    | apply (respects_lift R _ Rrefl)
    | apply (assign_chat_id_respects R _ Rrefl)
    | apply (assign_status_message_respects R _ Rrefl)
    | apply respects_in_world, (respects_weaken quiet R _ _ Rweak), bot_do_quiet ].

Lemma send_anime_try_evolves (update : pyobj) wt :
  respects (evolves cfg) snd (send_anime_try cfg rt update wt).
Proof.
  unfold send_anime_try.
  repeat first
    [ quiet_step (evolves cfg) (evolves_refl cfg) (quiet_evolves cfg)
    | apply respects_in_world, store_user_evolves, py_or_nonempty
    | apply respects_in_world, fetch_anime_image_evolves
    | apply (respects_bind (evolves cfg) _ (evolves_trans cfg)); [|intros]
    | match goal with |- respects _ _ (if ?b then _ else _) => destruct b end ].
Qed.

Lemma send_anime_try_one_request (update : pyobj) wt :
  at_most_one_request snd (send_anime_try cfg rt update wt).
Proof.
  unfold send_anime_try.
  repeat (apply one_request_bind_after;
          [ solve [ quiet_step same_requests same_requests_refl quiet_same_requests
                  | apply respects_in_world, store_user_same_requests ]
          | intros; cbv zeta ]).
  apply one_request_bind_before;
    [apply one_request_in_world, fetch_anime_image_one_request|intros].
  repeat first
    [ quiet_step same_requests same_requests_refl quiet_same_requests
    | apply (respects_bind same_requests _ same_requests_trans); [|intros]
    | match goal with |- respects _ _ (if ?b then _ else _) => destruct b end ].
Qed.

Lemma send_anime_evolves (update : pyobj) wt :
  respects (evolves cfg) (fun w => w) (send_anime_with_channels cfg rt update wt).
Proof.
  intros w. unfold send_anime_with_channels.
  pose proof (send_anime_try_evolves update wt (no_locals, w)) as Htry.
  destruct (send_anime_try cfg rt update wt (no_locals, w)) as [[[]|e] [l w1]];
    cbn [snd] in *; [exact Htry|].
  eapply evolves_trans; [exact Htry|].
  apply quiet_evolves, (send_anime_except_quiet l w1).
Qed.

Lemma send_anime_one_request (update : pyobj) wt :
  at_most_one_request (fun w => w) (send_anime_with_channels cfg rt update wt).
Proof.
  intros w. unfold send_anime_with_channels.
  pose proof (send_anime_try_one_request update wt (no_locals, w)) as Htry.
  destruct (send_anime_try cfg rt update wt (no_locals, w)) as [[[]|e] [l w1]];
    cbn [snd] in *; [exact Htry|].
  rewrite (quiet_same_requests _ _ (send_anime_except_quiet l w1)). exact Htry.
Qed.

(** *** Every handler, every event *)

Lemma dispatch_evolves (ev : inbound) :
  respects (evolves cfg) (fun w => w) (dispatch cfg rt ev).
Proof.
  destruct ev as [name u|u|u|u|u]; cbn [dispatch];
    unfold start_command, handle_any_message, handle_photo, handle_callback_query;
    repeat first
      [ apply send_anime_evolves
      | apply (respects_weaken quiet (evolves cfg) _ _ (quiet_evolves cfg)),
              help_command_quiet
      | apply (respects_weaken quiet (evolves cfg) _ _ (quiet_evolves cfg)),
              bot_do_quiet
      | apply (respects_ret (evolves cfg) _ (evolves_refl cfg))
      | apply (respects_lift (evolves cfg) _ (evolves_refl cfg))
      | apply (respects_bind (evolves cfg) _ (evolves_trans cfg)); [|intros]
      | match goal with |- respects _ _ (if ?b then _ else _) => destruct b end ].
Qed.

Lemma dispatch_one_request (ev : inbound) :
  at_most_one_request (fun w => w) (dispatch cfg rt ev).
Proof.
  assert (Hq : forall A (m : M world A),
    respects quiet (fun w => w) m -> respects same_requests (fun w => w) m).
  { intros A m. apply respects_weaken. exact quiet_same_requests. }
  assert (Hsame : forall A (m : M world A),
    respects same_requests (fun w => w) m -> at_most_one_request (fun w => w) m).
  { intros A m. apply one_request_of_same. }
  destruct ev as [name u|u|u|u|u]; cbn [dispatch];
    unfold start_command, handle_any_message, handle_photo, handle_callback_query;
    repeat first
      [ apply send_anime_one_request
      | apply Hsame, Hq, help_command_quiet
      | apply Hsame, (respects_ret same_requests _ same_requests_refl)
      | apply one_request_bind_after;
          [ solve [ apply Hq, bot_do_quiet
                  | apply (respects_lift same_requests _ same_requests_refl) ]
          | intros ]
      | match goal with
        | |- at_most_one_request _ (if ?b then _ else _) => destruct b
        end ].
Qed.

Lemma run_polling_evolves (events : list inbound) w :
  evolves cfg w (run_polling cfg rt events w).
Proof.
  revert w. induction events as [|ev events IH]; intros w.
  - apply evolves_refl.
  - cbn [run_polling fold_left]. eapply evolves_trans; [|apply IH].
    apply (dispatch_evolves ev w).
Qed.

(** Whatever the events and whatever the collaborators do, every search
    request the bot sends has the same fixed form: the search endpoint,
    the configured key as the only header, one of the listed terms, 20
    per page, a page from 1 to 10, orientation "all", timeout 10.
    Nothing of an inbound event reaches the search service. *)
Theorem search_requests_carry_no_user_input (events : list inbound) w :
  exists hs,
    http_log (run_polling cfg rt events w) = http_log w ++ hs /\
    Forall (good_request cfg) hs.
Proof. exact (proj1 (run_polling_evolves events w)). Qed.

(** Serving events never sends more than one search request per event. *)
Theorem at_most_one_search_per_event (events : list inbound) w :
  (length (http_log (run_polling cfg rt events w))
   <= length (http_log w) + length events)%nat.
Proof.
  revert w. induction events as [|ev events IH]; intros w.
  - cbn [run_polling fold_left length]. lia.
  - cbn [run_polling fold_left length]. specialize (IH (serve cfg rt w ev)).
    unfold run_polling in IH. pose proof (dispatch_one_request ev w) as Hone.
    unfold serve in *. lia.
Qed.

(** No directory entry is ever removed: a conversation that has a name
    still has one after any sequence of events. *)
Theorem directory_entries_persist (events : list inbound) w c :
  is_Some (user_db w !! c) ->
  is_Some (user_db (run_polling cfg rt events w) !! c).
Proof.
  destruct (run_polling_evolves events w) as (_ & _ & Hkeep & _). apply Hkeep.
Qed.

(** The directory never holds an empty name: if it holds none before,
    then after any sequence of events the lookup of any conversation,
    known or not, returns a non-empty name. *)
Theorem directory_names_never_empty (events : list inbound) w :
  (forall c n, user_db w !! c = Some n -> n <> "") ->
  forall c, exists n,
    fst (get_user_name c (run_polling cfg rt events w)) = Ok n /\ n <> "".
Proof.
  intros Hinit c. destruct (run_polling_evolves events w) as (_ & _ & _ & Hnew).
  unfold get_user_name. cbn [fst].
  destruct (user_db (run_polling cfg rt events w) !! c) as [n|] eqn:Hn.
  - exists n. split; [reflexivity|].
    destruct (Hnew c n Hn) as [Hold|Hne]; [exact (Hinit c n Hold)|exact Hne].
  - exists "User". split; [reflexivity|discriminate].
Qed.

End ServingFacts.

(* ================================================================== *)
(** ** The further statements at concrete inputs *)
(* ================================================================== *)

Lemma get_random_search_term_support_witness :
  exists r, (r < 20)%nat /\
    fst (get_random_search_term (with_draw rt_ok 0 r) initial_world) = Ok "waifu".
Proof.
  destruct (get_random_search_term_support rt_ok initial_world) as (_ & Hall).
  destruct (Hall "waifu") as (r & Hr & Hiff).
  - cbn [In ANIME_SEARCH_TERMS]. do 16 right. left. reflexivity.
  - exists r. split; [exact Hr|]. apply Hiff. apply Nat.mod_small. exact Hr.
Defined.

Lemma get_fallback_image_support_witness :
  exists r, (r < 4)%nat /\
    fst (get_fallback_image (with_draw rt_ok 0 r) initial_world)
    = Ok {| url := JStr "https://images.pexels.com/photos/2693212/pexels-photo-2693212.jpeg?auto=compress&cs=tinysrgb&w=1260&h=750&dpr=1";
            photographer := JStr "Pexels";
            alt := JStr "Anime aesthetic wallpaper" |}.
Proof.
  destruct (get_fallback_image_support rt_ok initial_world) as (_ & Hall).
  destruct (Hall {| url := JStr "https://images.pexels.com/photos/2693212/pexels-photo-2693212.jpeg?auto=compress&cs=tinysrgb&w=1260&h=750&dpr=1";
                    photographer := JStr "Pexels";
                    alt := JStr "Anime aesthetic wallpaper" |})
    as (r & Hr & Hiff).
  - cbn [In FALLBACK_IMAGES]. do 3 right. left. reflexivity.
  - exists r. split; [exact Hr|]. apply Hiff. apply Nat.mod_small. exact Hr.
Defined.

Lemma fetch_anime_image_uses_response_witness :
  exists d,
    fetch_anime_image sample_cfg rt_ok initial_world
    = (Ok d, drawn 1 (requested sample_cfg rt_ok initial_world)) /\
    url d = JStr "https://img.example/1.jpg".
Proof.
  destruct (fetch_anime_image_uses_response sample_cfg rt_ok initial_world
              [("photos",
                JArr [JObj [("src", JObj [("large", JStr "https://img.example/1.jpg")]);
                            ("photographer", JStr "Ann");
                            ("alt", JStr "A drawing")]])]
              [JObj [("src", JObj [("large", JStr "https://img.example/1.jpg")]);
                     ("photographer", JStr "Ann");
                     ("alt", JStr "A drawing")]]
              eq_refl eq_refl ltac:(discriminate))
    as (d & E & _ & (src & Hsrc & Hlarge & _) & _).
  - intros p [<-|[]].
    exists (JObj [("large", JStr "https://img.example/1.jpg")]),
           (JStr "https://img.example/1.jpg"), (JStr "Ann").
    repeat split.
  - exists d. split; [exact E|].
    cbn in Hsrc. inversion Hsrc; subst src. cbn in Hlarge. inversion Hlarge.
    reflexivity.
Defined.

Lemma empty_url_takes_degraded_path_witness :
  exists fb w2,
    In fb FALLBACK_IMAGES /\
    send_anime_with_channels sample_cfg rt_empty_url (ObjUpdate text_update)
      None initial_world = (Ok tt, w2) /\
    bot_log w2 =
      [ SendMessage 123 placeholder_text; DeleteMessage 123 100;
        degraded_reply sample_cfg rt_empty_url 123 fb ].
Proof.
  destruct (empty_url_takes_degraded_path sample_cfg rt_empty_url text_update
              chat_123 aiko None initial_world 100 empty_url_descriptor
              (snd (fetch_anime_image sample_cfg rt_empty_url aiko_waiting))
              eq_refl eq_refl eq_refl)
    as (fb & w2 & Hin & E & Hlog & _).
  - vm_compute. reflexivity.
  - reflexivity.
  - exists fb, w2. split; [exact Hin|]. split; [exact E|exact Hlog].
Defined.

Lemma failed_deletion_discards_image_witness :
  exists fb w2,
    In fb FALLBACK_IMAGES /\
    send_anime_with_channels sample_cfg (rt_fails_at 1) (ObjUpdate text_update)
      None initial_world = (Ok tt, w2) /\
    bot_log w2 =
      [ SendMessage 123 placeholder_text; DeleteMessage 123 100;
        DeleteMessage 123 100; degraded_reply sample_cfg (rt_fails_at 1) 123 fb ].
Proof.
  destruct (failed_deletion_discards_image sample_cfg (rt_fails_at 1) text_update
              chat_123 aiko None initial_world 100 one_photo_descriptor
              (snd (fetch_anime_image sample_cfg (rt_fails_at 1) aiko_waiting))
              eq_refl eq_refl eq_refl)
    as (fb & w2 & Hin & E & Hlog).
  - vm_compute. reflexivity.
  - reflexivity.
  - reflexivity.
  - exists fb, w2. split; [exact Hin|]. split; [exact E|exact Hlog].
Defined.

Lemma failed_photo_deletes_twice_witness :
  exists fb w2,
    In fb FALLBACK_IMAGES /\
    send_anime_with_channels sample_cfg (rt_fails_at 2) (ObjUpdate text_update)
      None initial_world = (Ok tt, w2) /\
    bot_log w2 =
      [ SendMessage 123 placeholder_text; DeleteMessage 123 100;
        SendPhoto 123 (JStr "https://img.example/1.jpg")
          (build_caption (rt_fails_at 2) None "Aiko" one_photo_descriptor)
          (create_channel_keyboard sample_cfg);
        DeleteMessage 123 100; degraded_reply sample_cfg (rt_fails_at 2) 123 fb ].
Proof.
  destruct (failed_photo_deletes_twice sample_cfg (rt_fails_at 2) text_update
              chat_123 aiko None initial_world 100 101 one_photo_descriptor
              (snd (fetch_anime_image sample_cfg (rt_fails_at 2) aiko_waiting))
              eq_refl eq_refl eq_refl)
    as (fb & w2 & Hin & E & Hlog).
  - vm_compute. reflexivity.
  - reflexivity.
  - reflexivity.
  - reflexivity.
  - exists fb, w2. split; [exact Hin|]. split; [exact E|exact Hlog].
Defined.

Lemma send_anime_without_chat_raises_witness :
  exists w2,
    send_anime_with_channels sample_cfg rt_ok (ObjUpdate update_without_chat)
      None initial_world = (Raise UnboundLocalError, w2) /\
    bot_log w2 = [] /\ http_log w2 = [] /\ user_db w2 = ∅.
Proof.
  destruct (send_anime_without_chat_raises sample_cfg rt_ok
              (ObjUpdate update_without_chat) None initial_world)
    as (w2 & E & Hdb & Hhttp & Hbot).
  - intros chat H. discriminate H.
  - exists w2. split; [exact E|]. split; [exact Hbot|]. split; [exact Hhttp|exact Hdb].
Defined.

Lemma start_command_greets_by_name_witness :
  exists w2 caption rest,
    start_command sample_cfg rt_ok text_update initial_world = (Ok tt, w2) /\
    user_db w2 !! 123 = Some "Aiko" /\
    bot_log w2 =
      [ SendMessage 123 placeholder_text; DeleteMessage 123 100;
        SendPhoto 123 (JStr "https://img.example/1.jpg") caption
                  (create_channel_keyboard sample_cfg) ] /\
    caption = "🌸 Welcome Aiko! 🌸" +:+ rest.
Proof.
  destruct (start_command_greets_by_name sample_cfg rt_ok text_update
              chat_123 aiko initial_world 100 101 102 one_photo_descriptor
              (snd (fetch_anime_image sample_cfg rt_ok aiko_waiting))
              eq_refl eq_refl eq_refl eq_refl eq_refl)
    as (w2 & caption & E & Hdb & Hlog & Hcap).
  - vm_compute. reflexivity.
  - reflexivity.
  - exists w2, caption. eexists. split; [exact E|]. split; [exact Hdb|].
    split; [exact Hlog|]. rewrite Hcap. reflexivity.
Defined.

Lemma message_handlers_guard_witness :
  handle_any_message sample_cfg rt_ok update_without_user initial_world
  = (Raise AttributeError, initial_world) /\
  handle_photo sample_cfg rt_ok update_without_user initial_world
  = (Raise AttributeError, initial_world).
Proof.
  destruct (message_handlers_guard sample_cfg rt_ok update_without_user
              initial_world) as (Hnone & _).
  exact (Hnone eq_refl).
Defined.

Lemma help_command_replies_once_witness :
  help_command sample_cfg rt_ok text_update initial_world
  = (Ok tt, log_call (ReplyText 1 (help_text sample_cfg) "Markdown") initial_world).
Proof.
  destruct (help_command_replies_once sample_cfg rt_ok text_update initial_world)
    as (_ & Hreply).
  exact (Hreply {| message_id := 1; text := Some "hello" |} eq_refl).
Defined.

Lemma other_buttons_only_acknowledged_witness :
  handle_callback_query sample_cfg rt_ok (button_update "like") initial_world
  = (Ok tt, log_call (AnswerCallbackQuery "q1") initial_world).
Proof.
  destruct (other_buttons_only_acknowledged sample_cfg rt_ok
              (button_update "like") initial_world) as (_ & Hother).
  exact (Hother {| query_id := "q1"; from_user := aiko; data := Some "like" |}
                eq_refl eq_refl eq_refl).
Defined.

Lemma channel_links_strip_at_signs_witness :
  exists b1 b2 row2,
    inline_keyboard (create_channel_keyboard sample_cfg) = [[b1; b2]; row2] /\
    link b1 = Some "https://t.me/main" /\
    link b2 = Some "https://t.me/backup".
Proof.
  destruct (channel_links_strip_at_signs sample_cfg)
    as (b1 & b2 & row2 & h1 & h2 & Hkb & Hl1 & Hl2 & _ & _ & Hmain & Hbackup).
  exists b1, b2, row2. split; [exact Hkb|].
  rewrite Hl1, Hl2, (Hmain "main" eq_refl eq_refl), (Hbackup "backup" eq_refl eq_refl).
  split; reflexivity.
Defined.

Lemma load_config_reads_six_variables_witness :
  load_config environ_with_more = load_config environ_token_and_key.
Proof.
  apply load_config_reads_six_variables.
  intros k Hk. cbn [In] in Hk.
  destruct Hk as [<-|[<-|[<-|[<-|[<-|[<-|[]]]]]]]; vm_compute; reflexivity.
Defined.

Lemma directory_entries_persist_witness :
  is_Some (user_db (run_polling sample_cfg rt_ok
                      [ButtonPress (button_update "help");
                       Command "help" text_update]
                      world_with_aiko) !! 123).
Proof.
  apply directory_entries_persist. exists "Aiko". vm_compute. reflexivity.
Defined.

Lemma directory_names_never_empty_witness :
  exists n,
    fst (get_user_name 123
           (run_polling sample_cfg rt_ok
              [TextMessage text_update; ButtonPress (button_update "get_random")]
              initial_world)) = Ok n /\ n <> "".
Proof.
  apply directory_names_never_empty.
  intros c n Hn. cbn [initial_world user_db] in Hn.
  rewrite lookup_empty in Hn. discriminate Hn.
Defined.

Lemma nameless_requester_recorded_as_there_witness :
  fst (get_user_name 123
         (snd (send_anime_with_channels sample_cfg rt_ok
                 (ObjUpdate nameless_update) None initial_world)))
  = Ok "there".
Proof.
  exact (f_equal fst
           (nameless_requester_recorded_as_there sample_cfg rt_ok
              nameless_update chat_123 {| first_name := "" |} None
              initial_world eq_refl eq_refl eq_refl)).
Defined.
